(** * power_bot: the moderation decision engine

    A shallow embedding of [power_bot.py]: the SQLite-backed store of bans,
    warns and allowed links, the in-memory sliding window of message times,
    the link filter, the two chat handlers and the owner commands.

    Conventions of the embedding.
    - User, chat and message identifiers are Python integers: [Z].
    - A [datetime] is the number of microseconds since a fixed epoch, a
      [timedelta] a number of microseconds: [Z].  The clock readings
      ([datetime.utcnow()] and SQLite's [CURRENT_TIMESTAMP]) are inputs.
    - A [str] is the list of its code points; the code points modelled are
      those below 256, so a character is an [ascii].
    - The SQLite tables are finite maps keyed by their primary key.  Storage
      failures are not modelled: every query returns.
    - Every call on the Telegram client ([context.bot.*], [reply_text]) may
      raise; the handlers run in a state-and-exception monad that records the
      calls attempted. *)

From Stdlib Require Import ZArith Lia List Ascii String Sorted Bool.
From stdpp Require Import base option list sorting gmap strings pretty.

Local Open Scope Z_scope.

(** ** Strings *)

Definition str : Type := list ascii.

Definition py (s : string) : str := list_ascii_of_string s.

(** [c.lower()] for a code point below 256: the ASCII capitals and the
    Latin-1 capitals (all of 0xC0..0xDE but the multiplication sign 0xD7)
    move up by 32. *)
Definition lower_char (c : ascii) : ascii :=
  let n := N_of_ascii c in
  if (((65 <=? n) && (n <=? 90)) ||
      ((192 <=? n) && (n <=? 222) && negb (n =? 215)))%N
  then ascii_of_N (n + 32) else c.

(** [s.lower()] *)
Definition lower (s : str) : str := map lower_char s.

(** [c.isspace()], which is also what the pattern class [\s] tests on a [str]
    pattern: TAB..CR, FS..US, SPACE, NEL and NBSP. *)
Definition isspace (c : ascii) : bool :=
  let n := N_of_ascii c in
  (((9 <=? n) && (n <=? 13)) || ((28 <=? n) && (n <=? 32)) ||
   (n =? 133) || (n =? 160))%N.

(** [s.startswith(p)] *)
Fixpoint startswith (p s : str) : bool :=
  match p, s with
  | [], _ => true
  | _ :: _, [] => false
  | a :: p', b :: s' => bool_decide (a = b) && startswith p' s'
  end.

(** [p in s] on strings: [p] occurs in [s] at some offset. *)
Fixpoint str_in (p s : str) : bool :=
  startswith p s ||
  match s with
  | [] => false
  | _ :: s' => str_in p s'
  end.

(** Remove a literal prefix, as a pattern consumes literal characters. *)
Fixpoint literal (p s : str) : option str :=
  match p, s with
  | [], _ => Some s
  | _ :: _, [] => None
  | a :: p', b :: s' => if bool_decide (a = b) then literal p' s' else None
  end.

(** [\S+] at the head of [s]: the longest run of non-space characters, which
    must not be empty. *)
Fixpoint non_space_run (s : str) : str :=
  match s with
  | [] => []
  | c :: s' => if isspace c then [] else c :: non_space_run s'
  end.

(** The tail [://\S+] of the pattern, returning the text it consumes. *)
Definition match_tail (s : str) : option str :=
  match literal (py "://") s with
  | None => None
  | Some r =>
      match non_space_run r with
      | [] => None
      | c :: run => Some (py "://" ++ c :: run)
      end
  end.

(** [LINK_REGEX = re.compile(r"https?://\S+")] anchored at the head of [s]:
    the greedy [s?] first takes an [s], and gives it back when the rest of
    the pattern then fails. *)
Definition match_at (s : str) : option str :=
  match literal (py "http") s with
  | None => None
  | Some r =>
      let with_s :=
        match literal (py "s") r with
        | Some r' => (fun m => py "https" ++ m) <$> match_tail r'
        | None => None
        end in
      match with_s with
      | Some m => Some m
      | None => (fun m => py "http" ++ m) <$> match_tail r
      end
  end.

(** The scan of [findall]: at each offset try the pattern; after a match
    resume behind it ([skip] counts the characters of the match still to be
    passed over). *)
Fixpoint findall_from (skip : nat) (s : str) : list str :=
  match s with
  | [] => []
  | _ :: s' =>
      match skip with
      | S k => findall_from k s'
      | O =>
          match match_at s with
          | Some m => m :: findall_from (Nat.pred (length m)) s'
          | None => findall_from 0 s'
          end
      end
  end.

(** [LINK_REGEX.findall(text)] *)
Definition LINK_REGEX_findall (text : str) : list str := findall_from 0 text.

(** ** The store (SQLite) *)

Record BanRecord := { reason : string; banned_at : Z }.
Record WarnRecord := { count : Z; last_warn : Z }.

(** Tables [bans] and [warns] by [user_id]; table [links] as its rows, in the
    order [SELECT link FROM links] returns them. *)
Record Store := {
  bans : gmap Z BanRecord;
  warns : gmap Z WarnRecord;
  links : list str
}.

Definition set_bans (f : gmap Z BanRecord → gmap Z BanRecord) (db : Store) : Store :=
  {| bans := f (bans db); warns := warns db; links := links db |}.
Definition set_warns (f : gmap Z WarnRecord → gmap Z WarnRecord) (db : Store) : Store :=
  {| bans := bans db; warns := f (warns db); links := links db |}.
Definition set_links (f : list str → list str) (db : Store) : Store :=
  {| bans := bans db; warns := warns db; links := f (links db) |}.

Definition empty_store : Store := {| bans := ∅; warns := ∅; links := [] |}.

(** The order of the index on the primary key [link]: byte by byte, a
    proper prefix first (on the code points modelled the order of the bytes
    stored is the order of the code points). *)
Fixpoint str_ltb (a b : str) : bool :=
  match a, b with
  | _, [] => false
  | [], _ :: _ => true
  | x :: a', y :: b' =>
      if (N_of_ascii x <? N_of_ascii y)%N then true
      else if (N_of_ascii y <? N_of_ascii x)%N then false
      else str_ltb a' b'
  end.

(** [a] does not come after [b] in that order. *)
Definition link_order (a b : str) : Prop := str_ltb b a = false.

(** A new row takes its place in that order, which is the order
    [SELECT link FROM links] reads the rows in. *)
Fixpoint insert_link (link : str) (ls : list str) : list str :=
  match ls with
  | [] => [link]
  | l :: rest => if str_ltb link l then link :: ls else l :: insert_link link rest
  end.

(** [INSERT OR IGNORE INTO links(link) VALUES(?)] *)
Definition add_allowed_link (link : str) (db : Store) : Store :=
  set_links (fun ls => if bool_decide (link ∈ ls) then ls else insert_link link ls) db.

(** [DELETE FROM links WHERE link=?] *)
Definition remove_allowed_link (link : str) (db : Store) : Store :=
  set_links (fun ls => filter (fun l => l ≠ link) ls) db.

Definition list_allowed_links (db : Store) : list str := links db.

(** [INSERT OR REPLACE INTO bans(user_id, reason) VALUES(?,?)]; [banned_at]
    takes its default, [CURRENT_TIMESTAMP]. *)
Definition ban_user_db (ts : Z) (user_id : Z) (why : string) (db : Store) : Store :=
  set_bans (fun b => <[user_id := {| reason := why; banned_at := ts |}]> b) db.

(** [DELETE FROM bans WHERE user_id=?] *)
Definition unban_user_db (user_id : Z) (db : Store) : Store :=
  set_bans (fun b => delete user_id b) db.

(** [SELECT 1 FROM bans WHERE user_id=?], [fetchone() is not None] *)
Definition is_banned_db (user_id : Z) (db : Store) : bool :=
  match bans db !! user_id with
  | Some _ => true
  | None => false
  end.

(** [SELECT count ...], then [UPDATE] with the count plus one or [INSERT]
    with 1; the count is a Python integer. *)
Definition warn_user_db (ts : Z) (user_id : Z) (db : Store) : Z * Store :=
  match warns db !! user_id with
  | Some row =>
      let cnt := count row + 1 in
      (cnt, set_warns (fun w => <[user_id := {| count := cnt; last_warn := ts |}]> w) db)
  | None =>
      let cnt := 1 in
      (cnt, set_warns (fun w => <[user_id := {| count := cnt; last_warn := ts |}]> w) db)
  end.

(** Calls of [warn_user_db] in a row for one user, one per reading of
    [CURRENT_TIMESTAMP] in [tss]: the counts returned, in order, and the
    store left. *)
Fixpoint warn_each (tss : list Z) (user_id : Z) (d : Store) : list Z * Store :=
  match tss with
  | [] => ([], d)
  | ts :: rest =>
      let '(c, d') := warn_user_db ts user_id d in
      let '(cs, d'') := warn_each rest user_id d' in
      (c :: cs, d'')
  end.

(** [DELETE FROM warns WHERE user_id=?] *)
Definition reset_warns_db (user_id : Z) (db : Store) : Store :=
  set_warns (fun w => delete user_id w) db.

(** ** The spam tracker *)

(** [timedelta(seconds=60)] *)
Definition WINDOW : Z := 60 * 1000000.

(** [while dq and dq[0] < cutoff: dq.popleft()] *)
Fixpoint evict (cutoff : Z) (dq : list Z) : list Z :=
  match dq with
  | [] => []
  | t0 :: rest => if t0 <? cutoff then evict cutoff rest else dq
  end.

(** [user_msg_times] is a [defaultdict] of deques: a missing user reads as
    the empty deque, and the deque is stored back under the user. *)
Definition add_message_time (now : Z) (user_id : Z) (times : gmap Z (list Z))
  : Z * gmap Z (list Z) :=
  let dq := default [] (times !! user_id) in
  let dq := dq ++ [now] in
  let cutoff := now - WINDOW in
  let dq := evict cutoff dq in
  (Z.of_nat (length dq), <[user_id := dq]> times).

(** A run of calls from the state at process start: each call is the user and
    the clock reading it gets; the result is the counts returned, in order. *)
Fixpoint run_calls (calls : list (Z * Z)) (times : gmap Z (list Z))
  : list Z * gmap Z (list Z) :=
  match calls with
  | [] => ([], times)
  | (user_id, now) :: rest =>
      let '(c, times') := add_message_time now user_id times in
      let '(cs, times'') := run_calls rest times' in
      (c :: cs, times'')
  end.

(** The clock readings of the calls of one user, in call order. *)
Definition times_of (user_id : Z) (calls : list (Z * Z)) : list Z :=
  snd <$> filter (fun c => fst c = user_id) calls.

(** ** The link filter *)

(** The loop of [contains_allowed_link]:
    [for l in links: if l and l.lower() in txt: return True]. *)
Fixpoint any_allowed (txt : str) (ls : list str) : bool :=
  match ls with
  | [] => false
  | l :: rest =>
      if negb (bool_decide (l = [])) && str_in (lower l) txt then true
      else any_allowed txt rest
  end.

Definition contains_allowed_link (text : str) (db : Store) : bool :=
  let ls := list_allowed_links db in
  match ls with
  | [] => false
  | _ :: _ =>
      let txt := lower text in
      any_allowed txt ls
  end.

Inductive Verdict := Allowed | Disallowed.

(** The link decision of [message_handler] on the text of a message: the
    text is lowercased, searched for links, and a text with a link passes
    only through [contains_allowed_link]. *)
Definition classify (msg_text : str) (db : Store) : Verdict :=
  let text := lower msg_text in
  let found_links := LINK_REGEX_findall text in
  match found_links with
  | [] => Allowed
  | _ :: _ => if contains_allowed_link text db then Allowed else Disallowed
  end.

(** ** The chat client and the handler monad *)

(** The texts the handlers send, by what they say; a user id stands for the
    name formatted into the text. *)
Inductive Reply :=
| Welcome (user : Z)
| WarnNotice (n : Z)
| SpamBanNotice (user : Z)
| FailedToBan
| NeedBanRights
| RemovedPM
| LinkRemovedNotice (user : Z)
| FaqHint.

Inductive Action :=
| ReplyText (chat : Z) (r : Reply)
| BanChatMember (chat user : Z)
| UnbanChatMember (chat user : Z)
| DeleteMessage (chat message : Z)
| SendMessage (user : Z) (r : Reply).

Record Config := {
  OWNER_ID : Z;
  ALLOWED_CHAT_IDS : list Z;
  SPAM_MAX : Z
}.

(** What a handler run gets from outside: whether a call on the client
    returns ([true]) or raises, and the two clock readings. *)
Record Env := {
  gateway : Action → bool;
  utcnow : Z;
  CURRENT_TIMESTAMP : Z
}.

Record World := {
  db : Store;
  user_msg_times : gmap Z (list Z);
  calls : list Action
}.

Inductive Outcome (A : Type) :=
| Returned (a : A)
| Raised.
Arguments Returned {A} a.
Arguments Raised {A}.

Definition M (A : Type) : Type := World → Outcome A * World.

Definition ret {A} (a : A) : M A := fun w => (Returned a, w).

(** Sequencing: an exception raised by [m] skips [k]. *)
Definition bind {A B} (m : M A) (k : A → M B) : M B := fun w =>
  match m w with
  | (Returned a, w') => k a w'
  | (Raised, w') => (Raised, w')
  end.

Declare Scope handler_scope.
Delimit Scope handler_scope with handler.
Notation "x <~ m ; k" := (bind m (fun x => k))
  (at level 200, m at level 100, k at level 200, right associativity,
   only parsing) : handler_scope.
Notation "m >> k" := (bind m (fun _ => k))
  (at level 100, k at level 200, right associativity, only parsing)
  : handler_scope.
Local Open Scope handler_scope.

(** [try: body / except: handler] *)
Definition try_except {A} (body handler : M A) : M A := fun w =>
  match body w with
  | (Returned a, w') => (Returned a, w')
  | (Raised, w') => handler w'
  end.

(** A call on the client: recorded, then it returns or raises. *)
Definition bot (env : Env) (a : Action) : M unit := fun w =>
  (if gateway env a then Returned tt else Raised,
   {| db := db w; user_msg_times := user_msg_times w; calls := calls w ++ [a] |}).

Definition query {A} (f : Store → A) : M A := fun w => (Returned (f (db w)), w).

Definition exec (f : Store → Store) : M unit := fun w =>
  (Returned tt,
   {| db := f (db w); user_msg_times := user_msg_times w; calls := calls w |}).

Definition exec_ret {A} (f : Store → A * Store) : M A := fun w =>
  let '(a, db') := f (db w) in
  (Returned a, {| db := db'; user_msg_times := user_msg_times w; calls := calls w |}).

Definition track (env : Env) (user_id : Z) : M Z := fun w =>
  let '(n, times') := add_message_time (utcnow env) user_id (user_msg_times w) in
  (Returned n, {| db := db w; user_msg_times := times'; calls := calls w |}).

(** ** The handlers *)

Record Message := {
  chat_id : Z;
  from_user : Z;
  text : option str;
  message_id : Z;
  new_chat_members : list Z
}.

(** The body of the loop of [new_member_handler] for one member. *)
Definition greet_or_remove (env : Env) (chat m : Z) : M unit :=
  banned <~ query (is_banned_db m);
  if banned then
    try_except
      (bot env (BanChatMember chat m) >>
       bot env (UnbanChatMember chat m))
      (ret tt)
  else
    bot env (ReplyText chat (Welcome m)).

Fixpoint for_each_member (env : Env) (chat : Z) (members : list Z) : M unit :=
  match members with
  | [] => ret tt
  | m :: rest => greet_or_remove env chat m >> for_each_member env chat rest
  end.

Definition new_member_handler (env : Env) (msg : Message) : M unit :=
  for_each_member env (chat_id msg) (new_chat_members msg).

(** [any(w in text for w in [...])]: of the three keywords the first is
    written in Bengali script, whose code points lie above 255, so on the
    texts modelled only the other two can occur. *)
Definition has_keyword (text : str) : bool :=
  existsb (fun w => str_in w text) [py "remove"; py "ban"].

(** The body of [if count > SPAM_MAX:], up to its [return]: warn, and ban
    on the third warning. *)
Definition spam_branch (env : Env) (chat user : Z) : M unit :=
  warned <~ exec_ret (warn_user_db (CURRENT_TIMESTAMP env) user);
  bot env (ReplyText chat (WarnNotice warned)) >>
  if 3 <=? warned then
    try_except
      (bot env (BanChatMember chat user) >>
       exec (ban_user_db (CURRENT_TIMESTAMP env) user "spam") >>
       bot env (ReplyText chat (SpamBanNotice user)))
      (bot env (ReplyText chat FailedToBan))
  else ret tt.

(** The body of [if found_links:], up to its [return]; the [return] inside
    the second [except] is the [false] of [removed]. *)
Definition link_branch (env : Env) (chat user message : Z) (text : str) : M unit :=
  allowed <~ query (contains_allowed_link text);
  if allowed then ret tt else
  try_except (bot env (DeleteMessage chat message)) (ret tt) >>
  removed <~ try_except
    (bot env (BanChatMember chat user) >>
     exec (ban_user_db (CURRENT_TIMESTAMP env) user "posted_disallowed_link") >>
     ret true)
    (bot env (ReplyText chat NeedBanRights) >>
     ret false);
  if removed then
    try_except (bot env (SendMessage user RemovedPM)) (ret tt) >>
    bot env (ReplyText chat (LinkRemovedNotice user))
  else ret tt.

Definition message_handler (cfg : Config) (env : Env) (update_message : option Message)
  : M unit :=
  match update_message with
  | None => ret tt
  | Some msg =>
      match text msg with
      | None | Some [] => ret tt
      | Some msg_text =>
          let chat := chat_id msg in
          if negb (bool_decide (ALLOWED_CHAT_IDS cfg = []))
             && negb (bool_decide (chat ∈ ALLOWED_CHAT_IDS cfg))
          then ret tt else
          let user := from_user msg in
          if bool_decide (user = OWNER_ID cfg) then ret tt else
          n <~ track env user;
          if SPAM_MAX cfg <? n then spam_branch env chat user
          else
            let text := lower msg_text in
            let found_links := LINK_REGEX_findall text in
            match found_links with
            | _ :: _ => link_branch env chat user (message_id msg) text
            | [] =>
                if has_keyword text then bot env (ReplyText chat FaqHint)
                else ret tt
            end
      end
  end.

(** A fresh process on a store [d]: no message times, no calls yet. *)
Definition start (d : Store) : World :=
  {| db := d; user_msg_times := ∅; calls := [] |}.

(** ** The owner commands *)

(** [c.isdigit()] for a code point below 256: the ASCII digits and the
    superscripts two, three and one. *)
Definition isdigit_char (c : ascii) : bool :=
  let n := N_of_ascii c in
  (((48 <=? n) && (n <=? 57)) || (n =? 178) || (n =? 179) || (n =? 185))%N.

(** [s.isdigit()]: every character a digit, and at least one. *)
Definition isdigit (s : str) : bool :=
  match s with
  | [] => false
  | _ :: _ => forallb isdigit_char s
  end.

(** The value of a decimal digit; of the digits below 256 only the ASCII
    ones are decimal. *)
Definition decimal (c : ascii) : option Z :=
  let n := N_of_ascii c in
  if ((48 <=? n) && (n <=? 57))%N then Some (Z.of_N n - 48) else None.

Fixpoint int_from (acc : Z) (s : str) : option Z :=
  match s with
  | [] => Some acc
  | c :: s' =>
      match decimal c with
      | Some d => int_from (10 * acc + d) s'
      | None => None
      end
  end.

(** [int(s)] on a string of digits; [None] is its [ValueError], raised on a
    digit that is not decimal.  (The interpreter also refuses strings of
    several thousand digits; a token of a Telegram message, at most 4096
    characters, stays below that.) *)
Definition int_of_digits (s : str) : option Z :=
  match s with
  | [] => None
  | _ :: _ => int_from 0 s
  end.

(** [s.lstrip()] *)
Fixpoint lstrip (s : str) : str :=
  match s with
  | [] => []
  | c :: s' => if isspace c then lstrip s' else s
  end.

(** [s.strip()]: whitespace is removed at both ends. *)
Definition strip (s : str) : str := rev (lstrip (rev (lstrip s))).

(** What SQLite stores as INTEGER: a Python integer outside this range
    raises [OverflowError] when bound to a statement. *)
Definition fits_sqlite (n : Z) : bool := (- 2 ^ 63 <=? n) && (n <? 2 ^ 63).

(** The texts the commands reply with, by what they say. *)
Inductive Say :=
| NotOwner
| UsageAddlink
| UsageRemovelink
| UsageBan
| UsageUnban
| UsageWarn
| AddedLink (link : str)
| RemovedLink (link : str)
| NoLinks
| LinkList (ls : list str)
| UserNotFound
| SayBanned (user : Z)
| SayUnbanned (user : Z)
| SayWarned (user n : Z)
| UsageMute
| UsageUnmute
| SayMuted (user mins : Z)
| FailedToMute
| SayUnmuted (user : Z)
| FailedToUnmute.

(** The calls a command makes: a reply to the command, a directory lookup
    [get_chat], a ban or unban call of the moderation client, or
    [restrict_chat_member] (may the user send, and until when, if a time is
    given). *)
Inductive OwnerCall :=
| Reply_text (s : Say)
| GetChat (handle : str)
| Moderate (a : Action)
| Restrict (chat user : Z) (can_send : bool) (until_date : option Z).

(** [get_chat] returns the id of the chat of a handle, or raises ([None]);
    [restricts] tells whether a [restrict_chat_member] call returns. *)
Record CmdEnv := {
  chat_env : Env;
  says : Say → bool;
  get_chat : str → option Z;
  restricts : Z → Z → bool → option Z → bool
}.

(** A command as received: who sent it, in which chat, and [context.args]. *)
Record Command := {
  effective_user : Z;
  effective_chat : Z;
  args : list str
}.

Record CmdWorld := {
  cmd_db : Store;
  cmd_calls : list OwnerCall
}.

Definition C (A : Type) : Type := CmdWorld → Outcome A * CmdWorld.

Definition cret {A} (a : A) : C A := fun w => (Returned a, w).

Definition craise {A} : C A := fun w => (Raised, w).

Definition cbind {A B} (m : C A) (k : A → C B) : C B := fun w =>
  match m w with
  | (Returned a, w') => k a w'
  | (Raised, w') => (Raised, w')
  end.

Declare Scope command_scope.
Delimit Scope command_scope with command.
Notation "x <~ m ; k" := (cbind m (fun x => k))
  (at level 200, m at level 100, k at level 200, right associativity,
   only parsing) : command_scope.
Notation "m >> k" := (cbind m (fun _ => k))
  (at level 100, k at level 200, right associativity, only parsing)
  : command_scope.
Local Open Scope command_scope.

Definition ctry {A} (body handler : C A) : C A := fun w =>
  match body w with
  | (Returned a, w') => (Returned a, w')
  | (Raised, w') => handler w'
  end.

Definition called (c : OwnerCall) (w : CmdWorld) : CmdWorld :=
  {| cmd_db := cmd_db w; cmd_calls := cmd_calls w ++ [c] |}.

(** [update.message.reply_text(...)] *)
Definition reply_text (env : CmdEnv) (s : Say) : C unit := fun w =>
  (if says env s then Returned tt else Raised, called (Reply_text s) w).

(** [context.bot.ban_chat_member(...)], [unban_chat_member(...)] *)
Definition moderate (env : CmdEnv) (a : Action) : C unit := fun w =>
  (if gateway (chat_env env) a then Returned tt else Raised, called (Moderate a) w).

(** A statement with the integer [n] bound to it, changing the store by [f]. *)
Definition execute (n : Z) (f : Store → Store) : C unit := fun w =>
  if fits_sqlite n
  then (Returned tt, {| cmd_db := f (cmd_db w); cmd_calls := cmd_calls w |})
  else (Raised, w).

Definition execute_ret {A} (n : Z) (f : Store → A * Store) : C A := fun w =>
  if fits_sqlite n
  then let '(a, d) := f (cmd_db w) in
       (Returned a, {| cmd_db := d; cmd_calls := cmd_calls w |})
  else (Raised, w).

Definition select {A} (f : Store → A) : C A := fun w => (Returned (f (cmd_db w)), w).

(** [if username.startswith("@"): username = username[1:]] *)
Definition bare_username (username : str) : str :=
  if startswith (py "@") username then drop 1 username else username.

(** [resolve_username_to_id]: one leading [@] is dropped and put back; a
    lookup that raises gives [None]. *)
Definition resolve_username_to_id (env : CmdEnv) (username : str) : C (option Z) :=
  let username := bare_username username in
  fun w => (Returned (get_chat env (py "@" ++ username)),
            called (GetChat (py "@" ++ username)) w).

(** [owner_only] *)
Definition owner_only (cfg : Config) (env : CmdEnv) (cmd : Command) : C bool :=
  if bool_decide (effective_user cmd ≠ OWNER_ID cfg) then
    reply_text env NotOwner >> cret false
  else cret true.

(** The block shared by [cmd_ban], [cmd_unban] and [cmd_warn]:
    [target_id = int(target) if target.isdigit() else resolve(target)]. *)
Definition target_id_of (env : CmdEnv) (target : str) : C (option Z) :=
  if isdigit target then
    match int_of_digits target with
    | Some n => cret (Some n)
    | None => craise
    end
  else resolve_username_to_id env target.

Definition cmd_addlink (cfg : Config) (env : CmdEnv) (cmd : Command) : C unit :=
  ok <~ owner_only cfg env cmd;
  if negb ok then cret tt else
  match args cmd with
  | [] => reply_text env UsageAddlink
  | a :: _ =>
      let link := strip a in
      (fun w => (Returned tt, {| cmd_db := add_allowed_link link (cmd_db w);
                                 cmd_calls := cmd_calls w |})) >>
      reply_text env (AddedLink link)
  end.

Definition cmd_removelink (cfg : Config) (env : CmdEnv) (cmd : Command) : C unit :=
  ok <~ owner_only cfg env cmd;
  if negb ok then cret tt else
  match args cmd with
  | [] => reply_text env UsageRemovelink
  | a :: _ =>
      let link := strip a in
      (fun w => (Returned tt, {| cmd_db := remove_allowed_link link (cmd_db w);
                                 cmd_calls := cmd_calls w |})) >>
      reply_text env (RemovedLink link)
  end.

Definition cmd_listlinks (cfg : Config) (env : CmdEnv) (cmd : Command) : C unit :=
  ok <~ owner_only cfg env cmd;
  if negb ok then cret tt else
  ls <~ select list_allowed_links;
  match ls with
  | [] => reply_text env NoLinks
  | _ :: _ => reply_text env (LinkList ls)
  end.

Definition cmd_ban (cfg : Config) (env : CmdEnv) (cmd : Command) : C unit :=
  ok <~ owner_only cfg env cmd;
  if negb ok then cret tt else
  match args cmd with
  | [] => reply_text env UsageBan
  | target :: _ =>
      target_id <~ target_id_of env target;
      match target_id with
      | None | Some 0 => reply_text env UserNotFound
      | Some id =>
          execute id (ban_user_db (CURRENT_TIMESTAMP (chat_env env)) id
                        ("manual by owner " +:+ pretty (effective_user cmd))) >>
          ctry (moderate env (BanChatMember (effective_chat cmd) id)) (cret tt) >>
          reply_text env (SayBanned id)
      end
  end.

Definition cmd_unban (cfg : Config) (env : CmdEnv) (cmd : Command) : C unit :=
  ok <~ owner_only cfg env cmd;
  if negb ok then cret tt else
  match args cmd with
  | [] => reply_text env UsageUnban
  | target :: _ =>
      target_id <~ target_id_of env target;
      match target_id with
      | None | Some 0 => reply_text env UserNotFound
      | Some id =>
          execute id (unban_user_db id) >>
          ctry (moderate env (UnbanChatMember (effective_chat cmd) id)) (cret tt) >>
          reply_text env (SayUnbanned id)
      end
  end.

Definition cmd_warn (cfg : Config) (env : CmdEnv) (cmd : Command) : C unit :=
  ok <~ owner_only cfg env cmd;
  if negb ok then cret tt else
  match args cmd with
  | [] => reply_text env UsageWarn
  | target :: _ =>
      target_id <~ target_id_of env target;
      match target_id with
      | None | Some 0 => reply_text env UserNotFound
      | Some id =>
          cnt <~ execute_ret id (warn_user_db (CURRENT_TIMESTAMP (chat_env env)) id);
          reply_text env (SayWarned id cnt)
      end
  end.

(** The last instant a [datetime] can hold, 9999-12-31 23:59:59.999999, with
    the epoch at the first instant of year 1. *)
Definition DATETIME_MAX : Z := 3652059 * 86400 * 1000000 - 1.

(** [datetime.utcnow() + timedelta(minutes=mins)]: [OverflowError] beyond the
    last instant. *)
Definition add_minutes (now mins : Z) : C Z :=
  if now + mins * 60 * 1000000 <=? DATETIME_MAX
  then cret (now + mins * 60 * 1000000)
  else craise.

Definition restrict_chat_member (env : CmdEnv) (chat user : Z) (can_send : bool)
    (until_date : option Z) : C unit := fun w =>
  (if restricts env chat user can_send until_date then Returned tt else Raised,
   called (Restrict chat user can_send until_date) w).

(** [int(context.args[1]) if len(context.args) > 1 and
    context.args[1].isdigit() else 10] *)
Definition minutes_of (more : list str) : C Z :=
  match more with
  | a1 :: _ =>
      if isdigit a1 then
        match int_of_digits a1 with
        | Some m => cret m
        | None => craise
        end
      else cret 10
  | [] => cret 10
  end.

Definition cmd_mute (cfg : Config) (env : CmdEnv) (cmd : Command) : C unit :=
  ok <~ owner_only cfg env cmd;
  if negb ok then cret tt else
  match args cmd with
  | [] => reply_text env UsageMute
  | target :: more =>
      mins <~ minutes_of more;
      target_id <~ target_id_of env target;
      match target_id with
      | None | Some 0 => reply_text env UserNotFound
      | Some id =>
          ctry
            (until <~ add_minutes (utcnow (chat_env env)) mins;
             restrict_chat_member env (effective_chat cmd) id false (Some until) >>
             reply_text env (SayMuted id mins))
            (reply_text env FailedToMute)
      end
  end.

Definition cmd_unmute (cfg : Config) (env : CmdEnv) (cmd : Command) : C unit :=
  ok <~ owner_only cfg env cmd;
  if negb ok then cret tt else
  match args cmd with
  | [] => reply_text env UsageUnmute
  | target :: _ =>
      target_id <~ target_id_of env target;
      match target_id with
      | None | Some 0 => reply_text env UserNotFound
      | Some id =>
          ctry
            (restrict_chat_member env (effective_chat cmd) id true None >>
             reply_text env (SayUnmuted id))
            (reply_text env FailedToUnmute)
      end
  end.

(** A command arriving with nothing called yet. *)
Definition command_start (d : Store) : CmdWorld := {| cmd_db := d; cmd_calls := [] |}.

(** ** Vocabulary of the properties *)

(** [p] is a substring of [s]. *)
Definition occurs_in (p s : str) : Prop := ∃ pre post, s = pre ++ p ++ post.

(** [s] has a substring of the shape scheme, [://], one or more non-space
    characters, the scheme being [http] or [https]. *)
Definition has_url (s : str) : Prop :=
  ∃ pre scheme run post,
    s = pre ++ scheme ++ py "://" ++ run ++ post ∧
    (scheme = py "http" ∨ scheme = py "https") ∧
    run ≠ [] ∧ Forall (fun c => isspace c = false) run.

(** The message passes the filters at the head of [message_handler]: it has
    a text, its chat is not excluded, its sender is not the owner. *)
Definition is_moderated (cfg : Config) (msg : Message) (t : str) : Prop :=
  text msg = Some t ∧ t ≠ [] ∧
  (ALLOWED_CHAT_IDS cfg = [] ∨ chat_id msg ∈ ALLOWED_CHAT_IDS cfg) ∧
  from_user msg ≠ OWNER_ID cfg.

(** The bans table after an optional upsert of one row. *)
Definition upsert_ban (user_id : Z) (row : option BanRecord) (b : gmap Z BanRecord)
  : gmap Z BanRecord :=
  match row with
  | Some r => <[user_id := r]> b
  | None => b
  end.

Definition with_bans (b : gmap Z BanRecord) (w : World) : World :=
  {| db := set_bans (fun _ => b) (db w);
     user_msg_times := user_msg_times w;
     calls := calls w |}.



(** Two runs of a handler step from related worlds end alike: same outcome,
    related worlds. *)
Definition respects (R : World → World → Prop) {A} (m : M A) : Prop :=
  ∀ w1 w2, R w1 w2 →
    fst (m w1) = fst (m w2) ∧ R (snd (m w1)) (snd (m w2)).

(** Worlds equal but for the bans tables, which are [b1] and [b2] after the
    same optional upsert for [user]. *)
Definition bans_apart (user : Z) (b1 b2 : gmap Z BanRecord) (w1 w2 : World) : Prop :=
  user_msg_times w1 = user_msg_times w2 ∧
  calls w1 = calls w2 ∧
  warns (db w1) = warns (db w2) ∧
  links (db w1) = links (db w2) ∧
  ∃ row, bans (db w1) = upsert_ban user row b1 ∧
         bans (db w2) = upsert_ban user row b2.


(** The counts returned to one user: the entries of [cs] at the positions
    of that user's calls. *)
Definition counts_for (user_id : Z) (calls : list (Z * Z)) (cs : list Z) : list Z :=
  snd <$> filter (fun p => fst (fst p) = user_id) (zip calls cs).

(** A handler step always leaves the world it started from in relation [P]
    with the world it ends in. *)
Definition keeps (P : World → World → Prop) {A} (m : M A) : Prop :=
  ∀ w, P w (snd (m w)).

(** From [w] to [w'] nothing is taken back: the allow-list is the same, who
    was banned is banned, no warn count went down, the calls made are still
    there. *)
Definition only_adds (w w' : World) : Prop :=
  links (db w') = links (db w) ∧
  (∀ u, is_banned_db u (db w) = true → is_banned_db u (db w') = true) ∧
  (∀ u r, warns (db w) !! u = Some r →
          ∃ r', warns (db w') !! u = Some r' ∧ count r ≤ count r') ∧
  (∃ added, calls w' = calls w ++ added).

(** The calls [new_member_handler] makes for one member. *)
Definition member_calls (env : Env) (chat : Z) (d : Store) (m : Z) : list Action :=
  if is_banned_db m d then
    BanChatMember chat m ::
      (if gateway env (BanChatMember chat m) then [UnbanChatMember chat m] else [])
  else [ReplyText chat (Welcome m)].

(** Every reply to the chat returns. *)
Definition replies_return (env : Env) : Prop :=
  ∀ chat r, gateway env (ReplyText chat r) = true.

(** A handler step that never raises. *)
Definition always_returns {A} (m : M A) : Prop :=
  ∀ w, ∃ a, fst (m w) = Returned a.

(** The minutes a [/mute] is for: the second argument when it is a number,
    ten otherwise. *)
Definition minutes_given (more : list str) (mins : Z) : Prop :=
  match more with
  | [] => mins = 10
  | a1 :: _ =>
      if isdigit a1
      then int_of_digits a1 = Some mins ∧ (length a1 ≤ 4096)%nat
      else mins = 10
  end.

(** A command step that leaves the store as it finds it. *)
Definition leaves_store {A} (m : C A) : Prop :=
  ∀ w, cmd_db (snd (m w)) = cmd_db w.

(** ** Sample inputs *)

(** The default threshold, no chat filter, owner 1. *)
Definition sample_cfg : Config :=
  {| OWNER_ID := 1; ALLOWED_CHAT_IDS := []; SPAM_MAX := 20 |}.

(** A client on which every call returns. *)
Definition willing_env : Env :=
  {| gateway := fun _ => true; utcnow := 0; CURRENT_TIMESTAMP := 0 |}.

(** A client that refuses to ban (the bot lacks the right) and does
    everything else. *)
Definition refusing_env : Env :=
  {| gateway := fun a => match a with BanChatMember _ _ => false | _ => true end;
     utcnow := 0; CURRENT_TIMESTAMP := 0 |}.

(** A text message of user 5 in chat 7. *)
Definition sample_msg (t : string) : Message :=
  {| chat_id := 7; from_user := 5; text := Some (py t); message_id := 9;
     new_chat_members := [] |}.

(** User 5 has twenty message times in the window and two warns. *)
Definition flooded : World :=
  {| db := {| bans := ∅;
              warns := {[ 5 := {| count := 2; last_warn := 0 |} ]};
              links := [] |};
     user_msg_times := {[ 5 := replicate 20 0 ]};
     calls := [] |}.

(** A command environment over [e]: every reply returns or none does, every
    lookup gives [found], every restriction returns. *)
Definition cmd_env (e : Env) (answers : bool) (found : option Z) : CmdEnv :=
  {| chat_env := e; says := fun _ => answers; get_chat := fun _ => found;
     restricts := fun _ _ _ _ => true |}.

(** A command of user [who] in chat 7. *)
Definition command_of (who : Z) (a : list string) : Command :=
  {| effective_user := who; effective_chat := 7; args := py <$> a |}.

(** * Properties *)

(** ** Strings and the link pattern *)

Lemma startswith_spec (p s : str) :
  startswith p s = true ↔ ∃ post, s = p ++ post.
Proof.
  revert s. induction p as [|a p IH]; intros s; simpl.
  - split; eauto.
  - destruct s as [|b s].
    + split; [discriminate | intros [post H]; discriminate].
    + rewrite andb_true_iff, bool_decide_eq_true, IH. split.
      * intros [-> [post ->]]. eauto.
      * intros [post H]. injection H as -> ->. eauto.
Qed.

Lemma str_in_spec (p s : str) : str_in p s = true ↔ occurs_in p s.
Proof.
  unfold occurs_in. induction s as [|b s IH].
  - simpl. rewrite orb_false_r, startswith_spec. split.
    + intros [post H]. exists [], post. done.
    + intros (pre & post & H). symmetry in H.
      apply app_eq_nil in H as [-> H]. apply app_eq_nil in H as [-> ->].
      exists []. done.
  - simpl. rewrite orb_true_iff, startswith_spec, IH. split.
    + intros [[post H] | (pre & post & H)].
      * exists [], post. done.
      * exists (b :: pre), post. simpl. by rewrite H.
    + intros (pre & post & H). destruct pre as [|c pre]; simpl in H.
      * left. eauto.
      * right. injection H as -> ->. eauto.
Qed.

Lemma literal_spec (p s r : str) : literal p s = Some r ↔ s = p ++ r.
Proof.
  revert s. induction p as [|a p IH]; intros s; simpl.
  - split; [by intros [= ->] | by intros ->].
  - destruct s as [|b s]; [split; discriminate|].
    case_bool_decide as Hab.
    + subst b. rewrite IH. split; [by intros -> | by intros [= ->]].
    + split; [discriminate | intros [= -> _]; done].
Qed.

Lemma non_space_run_all (s : str) :
  Forall (fun c => isspace c = false) (non_space_run s).
Proof.
  induction s as [|c s IH]; simpl; [constructor|].
  destruct (isspace c) eqn:E; constructor; done.
Qed.

Lemma non_space_run_prefix (s : str) : ∃ post, s = non_space_run s ++ post.
Proof.
  induction s as [|c s [post IH]]; simpl; [by exists []|].
  destruct (isspace c); [by exists (c :: s)|].
  exists post. simpl. by rewrite <- IH.
Qed.

Lemma non_space_run_app (run post : str) :
  run ≠ [] → Forall (fun c => isspace c = false) run →
  non_space_run (run ++ post) ≠ [].
Proof.
  intros Hne Hall. destruct run as [|c run]; [done|].
  apply Forall_cons in Hall as [Hc _]. simpl. by rewrite Hc.
Qed.

Lemma match_tail_sound (s m : str) :
  match_tail s = Some m →
  ∃ run post, m = py "://" ++ run ∧ s = m ++ post ∧ run ≠ [] ∧
              Forall (fun c => isspace c = false) run.
Proof.
  unfold match_tail. destruct (literal (py "://") s) as [r|] eqn:Hl; [|done].
  apply literal_spec in Hl.
  pose proof (non_space_run_all r) as Hall.
  destruct (non_space_run_prefix r) as [post Hpost].
  destruct (non_space_run r) as [|c run] eqn:Hr; [done|].
  intros [= <-]. exists (c :: run), post. split_and!; try done.
  by rewrite Hl, Hpost.
Qed.

Lemma match_tail_complete (run post : str) :
  run ≠ [] → Forall (fun c => isspace c = false) run →
  is_Some (match_tail (py "://" ++ run ++ post)).
Proof.
  intros Hne Hall. unfold match_tail.
  assert (literal (py "://") (py "://" ++ run ++ post) = Some (run ++ post)) as ->
    by by apply literal_spec.
  pose proof (non_space_run_app run post Hne Hall).
  destruct (non_space_run (run ++ post)); [done | eauto].
Qed.

Lemma match_at_sound (s m : str) :
  match_at s = Some m → ∃ post, s = m ++ post ∧ has_url m.
Proof.
  unfold match_at. destruct (literal (py "http") s) as [r|] eqn:Hl; [|done].
  apply literal_spec in Hl. subst s.
  destruct (literal (py "s") r) as [r'|] eqn:Hs.
  - apply literal_spec in Hs. subst r.
    destruct (match_tail r') as [m'|] eqn:Ht; simpl.
    + intros [= <-]. apply match_tail_sound in Ht as (run & post & -> & -> & Hne & Hall).
      exists post. split; [done|].
      exists [], (py "https"), run, []. rewrite app_nil_r. done || (split_and!; auto).
    + done.
  - destruct (match_tail r) as [m'|] eqn:Ht; [|done]. simpl.
    intros [= <-]. apply match_tail_sound in Ht as (run & post & -> & -> & Hne & Hall).
    exists post. split; [done|].
    exists [], (py "http"), run, []. rewrite app_nil_r. split_and!; auto.
Qed.

Lemma match_at_complete (scheme run post : str) :
  scheme = py "http" ∨ scheme = py "https" →
  run ≠ [] → Forall (fun c => isspace c = false) run →
  is_Some (match_at (scheme ++ py "://" ++ run ++ post)).
Proof.
  intros Hscheme Hne Hall.
  destruct (match_tail_complete run post Hne Hall) as [m Hm].
  unfold match_at. destruct Hscheme as [-> | ->].
  - assert (literal (py "http") (py "http" ++ py "://" ++ run ++ post)
            = Some (py "://" ++ run ++ post)) as -> by by apply literal_spec.
    change (literal (py "s") (py "://" ++ run ++ post)) with (@None str).
    rewrite Hm. simpl. eauto.
  - assert (literal (py "http") (py "https" ++ py "://" ++ run ++ post)
            = Some (py "s" ++ py "://" ++ run ++ post)) as -> by by apply literal_spec.
    assert (literal (py "s") (py "s" ++ py "://" ++ run ++ post)
            = Some (py "://" ++ run ++ post)) as -> by by apply literal_spec.
    rewrite Hm. simpl. eauto.
Qed.

Lemma has_url_app_r (s post : str) : has_url s → has_url (s ++ post).
Proof.
  intros (pre & scheme & run & post' & -> & H).
  exists pre, scheme, run, (post' ++ post). split; [|done].
  by rewrite <- !app_assoc.
Qed.

Lemma has_url_cons (c : ascii) (s : str) : has_url s → has_url (c :: s).
Proof.
  intros (pre & scheme & run & post & -> & H).
  exists (c :: pre), scheme, run, post. done.
Qed.

Lemma findall_from_sound (s : str) (skip : nat) :
  findall_from skip s ≠ [] → has_url s.
Proof.
  revert skip. induction s as [|c s IH]; intros skip; simpl; [done|].
  destruct skip as [|k].
  - destruct (match_at (c :: s)) as [m|] eqn:Hm.
    + intros _. apply match_at_sound in Hm as (post & -> & Hu).
      by apply has_url_app_r.
    + intros H. apply has_url_cons. by apply (IH 0%nat).
  - intros H. apply has_url_cons. by apply (IH k).
Qed.

Lemma findall_from_complete (pre rest : str) :
  is_Some (match_at rest) → findall_from 0 (pre ++ rest) ≠ [].
Proof.
  intros [m Hm]. induction pre as [|c pre IH]; simpl.
  - destruct rest as [|c rest]; [done|]. simpl. by rewrite Hm.
  - destruct (match_at (c :: pre ++ rest)); done.
Qed.

(** The scan finds a link exactly when the text has a substring of the
    pattern's shape. *)
Lemma LINK_REGEX_findall_spec (s : str) : LINK_REGEX_findall s ≠ [] ↔ has_url s.
Proof.
  split.
  - apply findall_from_sound.
  - intros (pre & scheme & run & post & -> & Hscheme & Hne & Hall).
    apply findall_from_complete. by apply match_at_complete.
Qed.

Lemma lower_char_idemp (c : ascii) : lower_char (lower_char c) = lower_char c.
Proof. destruct c as [[] [] [] [] [] [] [] []]; reflexivity. Qed.

Lemma lower_idemp (s : str) : lower (lower s) = lower s.
Proof.
  unfold lower. induction s as [|c s IH]; simpl; [done|].
  by rewrite lower_char_idemp, IH.
Qed.

Lemma isspace_lower_char (c : ascii) : isspace (lower_char c) = isspace c.
Proof. destruct c as [[] [] [] [] [] [] [] []]; reflexivity. Qed.

(** Lowercasing keeps a link a link, so a text that has a link is always
    link-checked; it also makes one of a scheme written in capitals. *)
Lemma has_url_lower (s : str) : has_url s → has_url (lower s).
Proof.
  intros (pre & scheme & run & post & -> & Hscheme & Hne & Hall).
  exists (lower pre), scheme, (lower run), (lower post). split_and!.
  - unfold lower. rewrite !map_app. by destruct Hscheme as [-> | ->].
  - done.
  - by destruct run.
  - unfold lower. apply Forall_fmap. eapply Forall_impl; [exact Hall|].
    intros c Hc. simpl. by rewrite isspace_lower_char.
Qed.

Example capital_scheme_is_checked :
  ¬ has_url (py "HTTP://X") ∧ has_url (lower (py "HTTP://X")) ∧
  classify (py "HTTP://X") empty_store = Disallowed.
Proof.
  split_and!.
  - intros Hu. apply LINK_REGEX_findall_spec in Hu. by apply Hu.
  - apply LINK_REGEX_findall_spec. done.
  - reflexivity.
Qed.

Lemma any_allowed_spec (txt : str) (ls : list str) :
  any_allowed txt ls = true ↔
  ∃ l, l ∈ ls ∧ l ≠ [] ∧ occurs_in (lower l) txt.
Proof.
  induction ls as [|l ls IH]; simpl.
  - split; [done | intros (l & Hl & _); by apply elem_of_nil in Hl].
  - destruct (negb (bool_decide (l = [])) && str_in (lower l) txt) eqn:E.
    + split; [intros _ | done].
      apply andb_true_iff in E as [E1 E2].
      apply negb_true_iff, bool_decide_eq_false in E1.
      apply str_in_spec in E2. exists l. split_and!; [left | done..].
    + rewrite IH. split.
      * intros (l' & Hin & H). exists l'. split; [by right | done].
      * intros (l' & Hin & Hne & Hocc).
        apply elem_of_cons in Hin as [-> | Hin]; [|by eauto].
        apply andb_false_iff in E as [E | E].
        -- apply negb_false_iff, bool_decide_eq_true in E. done.
        -- apply str_in_spec in Hocc. congruence.
Qed.

Lemma contains_allowed_link_spec (text : str) (d : Store) :
  contains_allowed_link text d = true ↔
  ∃ l, l ∈ list_allowed_links d ∧ l ≠ [] ∧ occurs_in (lower l) (lower text).
Proof.
  unfold contains_allowed_link.
  destruct (list_allowed_links d) as [|l ls] eqn:E.
  - split; [done | intros (l & Hl & _); by apply elem_of_nil in Hl].
  - apply any_allowed_spec.
Qed.

Lemma any_allowed_skips_empty (txt : str) (ls : list str) :
  any_allowed txt (filter (fun l => l ≠ []) ls) = any_allowed txt ls.
Proof.
  induction ls as [|l ls IH]; [done|].
  rewrite filter_cons. case_decide as Hl; simpl.
  - destruct (negb (bool_decide (l = [])) && str_in (lower l) txt); [done | apply IH].
  - subst l. apply IH.
Qed.

Lemma contains_allowed_link_skips_empty (text : str) (d : Store) :
  contains_allowed_link text (set_links (filter (fun l => l ≠ [])) d)
  = contains_allowed_link text d.
Proof.
  unfold contains_allowed_link, list_allowed_links. simpl.
  pose proof (any_allowed_skips_empty (lower text) (links d)) as H.
  destruct (links d) as [|l ls]; [done|].
  destruct (filter (fun l => l ≠ []) (l :: ls)); [|done].
  by rewrite <- H.
Qed.

Lemma classify_allowed_iff (text : str) (d : Store) :
  classify text d = Allowed ↔
  ¬ has_url (lower text) ∨
  ∃ l, l ∈ list_allowed_links d ∧ l ≠ [] ∧ occurs_in (lower l) (lower text).
Proof.
  unfold classify.
  pose proof (LINK_REGEX_findall_spec (lower text)) as Hscan.
  pose proof (contains_allowed_link_spec (lower text) d) as Hlink.
  rewrite lower_idemp in Hlink.
  destruct (LINK_REGEX_findall (lower text)) as [|m ms].
  - split; [intros _ | done]. left. intros Hu. by apply Hscan in Hu.
  - assert (has_url (lower text)) as Hu by by apply Hscan.
    destruct (contains_allowed_link (lower text) d).
    + split; [intros _ | done]. right. by apply Hlink.
    + split; [done|]. intros [Hno | Hl]; [done|]. by apply Hlink in Hl.
Qed.

(** C3 (as stated, refuted): the text has a link and an entry of the
    allow-list, lowercased, occurs in the lowercased text, yet the message is
    disallowed: the entry is the empty string, which the filter skips. *)
Lemma classify_empty_entry_counterexample :
  let text := py "http://x" in
  let d := {| bans := ∅; warns := ∅; links := [py ""] |} in
  has_url text ∧
  (∃ l, l ∈ list_allowed_links d ∧ occurs_in (lower l) (lower text)) ∧
  classify text d = Disallowed.
Proof.
  split_and!.
  - exists [], (py "http"), (py "x"), []. split_and!; auto.
    by repeat constructor.
  - exists []. split; [by left|]. by exists [], (lower (py "http://x")).
  - reflexivity.
Qed.

(** C3 (amended): a text whose lowercased form has no substring of the link
    pattern is allowed; when it has one, the text is allowed exactly when
    some non-empty entry of the allow-list, lowercased, occurs in the
    lowercased text, and disallowed otherwise. *)
Theorem classify_spec (text : str) (d : Store) :
  (¬ has_url (lower text) → classify text d = Allowed) ∧
  (has_url (lower text) →
   (classify text d = Allowed ↔
    ∃ l, l ∈ list_allowed_links d ∧ l ≠ [] ∧ occurs_in (lower l) (lower text)) ∧
   (classify text d = Disallowed ↔
    ¬ ∃ l, l ∈ list_allowed_links d ∧ l ≠ [] ∧ occurs_in (lower l) (lower text))).
Proof.
  pose proof (classify_allowed_iff text d) as H.
  split.
  - intros Hno. apply H. by left.
  - intros Hu. split.
    + rewrite H. split; [intros [Hno | Hl]; done | by right].
    + destruct (classify text d).
      * split; [done|]. intros Hno. destruct H as [H _].
        destruct (H eq_refl) as [Hn | Hl]; done.
      * split; [|done]. intros _ Hl.
        destruct H as [_ H]. specialize (H (or_intror Hl)). done.
Qed.

(** C10: an empty entry of the allow-list never lets a message through:
    dropping the empty entries changes neither the answer of
    [contains_allowed_link] nor the verdict, and a text with a link is
    disallowed unless a non-empty entry, lowercased, occurs in the lowercased
    text. *)
Theorem empty_entry_is_ignored (text : str) (d : Store) :
  contains_allowed_link text (set_links (filter (fun l => l ≠ [])) d)
    = contains_allowed_link text d ∧
  classify text (set_links (filter (fun l => l ≠ [])) d) = classify text d ∧
  (has_url (lower text) →
   (¬ ∃ l, l ∈ list_allowed_links d ∧ l ≠ [] ∧ occurs_in (lower l) (lower text)) →
   classify text d = Disallowed).
Proof.
  split_and!.
  - apply contains_allowed_link_skips_empty.
  - unfold classify. by rewrite contains_allowed_link_skips_empty.
  - intros Hu Hno. destruct (classify text d) eqn:E; [|done].
    apply classify_allowed_iff in E as [E | E]; done.
Qed.

(** ** The store *)

(** C7: after [ban_user_db] the user is banned, after [unban_user_db] the
    user is not, whatever the bans table held before. *)
Theorem ban_unban_round_trip (d : Store) (ts user_id : Z) (why : string) :
  is_banned_db user_id (ban_user_db ts user_id why d) = true ∧
  is_banned_db user_id (unban_user_db user_id d) = false.
Proof.
  unfold is_banned_db, ban_user_db, unban_user_db. simpl.
  by rewrite lookup_insert_eq, lookup_delete_eq.
Qed.

Lemma warn_user_db_count (ts user_id : Z) (d : Store) :
  fst (warn_user_db ts user_id d)
  = match warns d !! user_id with Some row => count row + 1 | None => 1 end ∧
  warns (snd (warn_user_db ts user_id d)) !! user_id
  = Some {| count := fst (warn_user_db ts user_id d); last_warn := ts |}.
Proof.
  unfold warn_user_db. destruct (warns d !! user_id); simpl;
    by rewrite lookup_insert_eq.
Qed.

Lemma warn_each_from (tss : list Z) (user_id n : Z) (d : Store) :
  (∀ ts, fst (warn_user_db ts user_id d) = n) →
  fst (warn_each tss user_id d) = (fun i => n + Z.of_nat i) <$> seq 0 (length tss).
Proof.
  revert n d. induction tss as [|ts tss IH]; intros n d Hn; [done|].
  simpl. destruct (warn_user_db ts user_id d) as [c d'] eqn:E.
  destruct (warn_each tss user_id d') as [cs d''] eqn:E'.
  pose proof (Hn ts) as Hc. rewrite E in Hc. simpl in *. subst c.
  f_equal; [lia|].
  replace cs with (fst (warn_each tss user_id d')) by by rewrite E'.
  rewrite (IH (n + 1) d').
  - rewrite <- (fmap_S_seq 0), <- list_fmap_compose. apply list_fmap_ext.
    intros i x _. simpl. lia.
  - intros ts'. pose proof (warn_user_db_count ts user_id d) as [_ H].
    rewrite E in H. simpl in H.
    pose proof (warn_user_db_count ts' user_id d') as [H' _].
    by rewrite H', H.
Qed.

(** C5: for a user with no warn record, calls of [warn_user_db] in a row
    return 1, 2, ..., k; and after [reset_warns_db] the next call returns 1,
    whatever the store held. *)
Theorem warn_counts (d : Store) (tss : list Z) (ts user_id : Z) :
  (warns d !! user_id = None →
   fst (warn_each tss user_id d) = Z.of_nat <$> seq 1 (length tss)) ∧
  fst (warn_user_db ts user_id (reset_warns_db user_id d)) = 1.
Proof.
  split.
  - intros Hnone. rewrite (warn_each_from tss user_id 1 d).
    + rewrite <- (fmap_S_seq 0), <- list_fmap_compose. apply list_fmap_ext.
      intros i x _. simpl. lia.
    + intros ts'. unfold warn_user_db. by rewrite Hnone.
  - unfold warn_user_db, reset_warns_db. simpl. by rewrite lookup_delete_eq.
Qed.

Lemma warn_counts_witness :
  fst (warn_each [10; 20; 30] 5 empty_store) = [1; 2; 3] ∧
  fst (warn_user_db 40 5 (reset_warns_db 5 (snd (warn_each [10; 20; 30] 5 empty_store)))) = 1.
Proof.
  split.
  - apply (warn_counts empty_store [10; 20; 30] 0 5). reflexivity.
  - apply (warn_counts (snd (warn_each [10; 20; 30] 5 empty_store)) [] 40 5).
Defined.

(** ** The spam tracker *)

Lemma WINDOW_nonneg : 0 ≤ WINDOW.
Proof. unfold WINDOW. lia. Qed.

Lemma evict_keeps_last (cutoff now : Z) (dq : list Z) :
  cutoff ≤ now → last (evict cutoff (dq ++ [now])) = Some now.
Proof.
  intros Hle. induction dq as [|t0 dq IH]; simpl.
  - destruct (Z.ltb_spec now cutoff); [lia | done].
  - destruct (Z.ltb_spec t0 cutoff); [done|].
    change (t0 :: dq ++ [now]) with ((t0 :: dq) ++ [now]). apply last_snoc.
Qed.

(** C9: every call returns at least 1, because the time just appended is
    the last of the deque kept for the user. *)
Theorem add_message_time_positive (now user_id : Z) (times : gmap Z (list Z)) :
  1 ≤ fst (add_message_time now user_id times) ∧
  ∃ dq, snd (add_message_time now user_id times) !! user_id = Some dq ∧
        last dq = Some now ∧
        fst (add_message_time now user_id times) = Z.of_nat (length dq).
Proof.
  unfold add_message_time. simpl.
  pose proof WINDOW_nonneg as HW.
  pose proof (evict_keeps_last (now - WINDOW) now (default [] (times !! user_id))
                ltac:(lia)) as Hlast.
  split.
  - destruct (evict (now - WINDOW) (default [] (times !! user_id) ++ [now]));
      [done | simpl; lia].
  - eexists. rewrite lookup_insert_eq. done.
Qed.

Lemma evict_sorted (cutoff : Z) (dq : list Z) :
  StronglySorted Z.le dq → evict cutoff dq = filter (fun t => cutoff ≤ t) dq.
Proof.
  induction 1 as [|t0 dq Hs IH Hall]; [done|]. simpl.
  destruct (Z.ltb_spec t0 cutoff) as [Hlt | Hge].
  - rewrite filter_cons_False by lia. done.
  - rewrite filter_cons_True by done. f_equal.
    clear IH Hs. induction Hall as [|x dq Hx Hall IH]; [done|].
    rewrite filter_cons_True by lia. by rewrite <- IH.
Qed.

Lemma StronglySorted_filter_le (P : Z → Prop) `{!∀ x, Decision (P x)} (l : list Z) :
  StronglySorted Z.le l → StronglySorted Z.le (filter P l).
Proof.
  induction 1 as [|x l Hs IH Hall]; [constructor|].
  rewrite filter_cons. case_decide; [|done].
  constructor; [done|]. apply Forall_forall. intros y Hy.
  apply list_elem_of_filter in Hy as [_ Hy].
  rewrite Forall_forall in Hall. by apply Hall.
Qed.

(** One more call at [t], not earlier than the calls before it: evicting from
    the window kept at the last call gives the window of the new call. *)
Lemma evict_window_step (ts : list Z) (tl t : Z) :
  StronglySorted Z.le (ts ++ [t]) → tl ≤ t →
  evict (t - WINDOW) (filter (fun x => tl - WINDOW ≤ x) ts ++ [t])
  = filter (fun x => t - WINDOW ≤ x) (ts ++ [t]).
Proof.
  intros Hs Hle. apply StronglySorted_app in Hs as (Hlt & Hs & _).
  rewrite evict_sorted.
  - rewrite !filter_app. f_equal.
    rewrite list_filter_filter. apply list_filter_iff. intros x. lia.
  - apply StronglySorted_app_2.
    + intros x1 x2 H1 H2. apply list_elem_of_filter in H1 as [_ H1]. by apply Hlt.
    + by apply StronglySorted_filter_le.
    + repeat constructor.
Qed.

Lemma run_calls_snoc (calls : list (Z * Z)) (u t : Z) (times : gmap Z (list Z)) :
  run_calls (calls ++ [(u, t)]) times
  = (fst (run_calls calls times)
       ++ [fst (add_message_time t u (snd (run_calls calls times)))],
     snd (add_message_time t u (snd (run_calls calls times)))).
Proof.
  revert times.
  induction calls as [|[v s] calls IH]; intros times; cbn [run_calls app].
  - cbn [fst snd]. by destruct (add_message_time t u times).
  - destruct (add_message_time s v times) as [c times'].
    rewrite IH. by destruct (run_calls calls times').
Qed.

Lemma times_of_snoc (u v t : Z) (calls : list (Z * Z)) :
  times_of u (calls ++ [(v, t)])
  = times_of u calls ++ (if decide (v = u) then [t] else []).
Proof.
  unfold times_of. rewrite filter_app, fmap_app. f_equal.
  rewrite filter_cons. simpl. by case_decide.
Qed.

(** The deque kept for a user is the window of the user's last call. *)
Lemma run_calls_window (calls : list (Z * Z)) (u : Z) :
  StronglySorted Z.le (times_of u calls) →
  default [] (snd (run_calls calls ∅) !! u)
  = match last (times_of u calls) with
    | Some tl => filter (fun x => tl - WINDOW ≤ x) (times_of u calls)
    | None => []
    end.
Proof.
  induction calls as [|[v t] calls IH] using rev_ind; intros Hs; [done|].
  rewrite run_calls_snoc, times_of_snoc in *. simpl.
  unfold add_message_time. simpl. case_decide as Hv.
  - subst v. rewrite lookup_insert_eq, last_snoc. simpl.
    pose proof (StronglySorted_app_1_l _ _ _ Hs) as Hs'.
    rewrite (IH Hs'). destruct (last (times_of u calls)) as [tl|] eqn:Hl.
    + apply evict_window_step; [done|].
      apply StronglySorted_app in Hs as (Hlt & _). apply Hlt; [|by left].
      apply last_Some_elem_of in Hl. done.
    + apply last_None in Hl. rewrite Hl. simpl.
      pose proof WINDOW_nonneg. destruct (Z.ltb_spec t (t - WINDOW)); [lia|].
      rewrite filter_cons_True by lia. done.
  - rewrite app_nil_r in *. rewrite lookup_insert_ne by done. by apply IH.
Qed.

(** C1 (as stated, refuted): two calls exactly sixty seconds apart.  The
    second call returns 2, while only one of the two times is later than
    sixty seconds before it: the earlier time sits on the cutoff and is
    kept, since only times before the cutoff are evicted. *)
Lemma window_boundary_counterexample :
  let calls := [(5, 0); (5, 60000000)] in
  Sorted Z.le (times_of 5 calls) ∧
  last (fst (run_calls calls ∅)) = Some 2 ∧
  Z.of_nat (length (filter (fun ti => 60000000 - WINDOW < ti) (times_of 5 calls))) = 1.
Proof.
  split_and!; [|reflexivity..].
  repeat constructor. done.
Qed.

(** C1 (amended): for calls whose times for the user never decrease, the
    count a call returns is the number of the user's times, up to and
    including this call, that are not earlier than sixty seconds before
    it. *)
Theorem add_message_time_count (calls : list (Z * Z)) (u tn : Z) :
  Sorted Z.le (times_of u (calls ++ [(u, tn)])) →
  last (fst (run_calls (calls ++ [(u, tn)]) ∅))
  = Some (Z.of_nat (length (filter (fun ti => tn - WINDOW ≤ ti)
                                   (times_of u (calls ++ [(u, tn)]))))).
Proof.
  intros Hs. apply Sorted_StronglySorted in Hs; [|apply _].
  pose proof (run_calls_window (calls ++ [(u, tn)]) u Hs) as Hw.
  rewrite run_calls_snoc in *. cbn [fst snd] in *.
  rewrite last_snoc. f_equal.
  rewrite times_of_snoc in *. rewrite decide_True in * by done.
  rewrite last_snoc in Hw. rewrite <- Hw.
  unfold add_message_time. cbn [fst snd]. by rewrite lookup_insert_eq.
Qed.

Lemma add_message_time_count_witness :
  last (fst (run_calls ([(5, 0); (7, 10); (5, 30000000); (5, 60000001)] ++ [(5, 70000000)]) ∅))
  = Some 3.
Proof.
  rewrite (add_message_time_count [(5, 0); (7, 10); (5, 30000000); (5, 60000001)] 5 70000000).
  - reflexivity.
  - repeat constructor; done.
Defined.

(** ** The handlers *)

Ltac run_m :=
  unfold bind, ret, try_except, bot, query, exec, exec_ret, track; simpl.

(** C6 (as stated, refuted): a banned user rejoins and the client refuses the
    ban call.  The only call made is the ban call: no unban call follows it. *)
Lemma rejoin_ban_refused_counterexample :
  let env := {| gateway := fun a => match a with BanChatMember _ _ => false | _ => true end;
                utcnow := 0; CURRENT_TIMESTAMP := 0 |} in
  let d := ban_user_db 0 5 "spam" empty_store in
  let msg := {| chat_id := 7; from_user := 5; text := None; message_id := 9;
                new_chat_members := [5] |} in
  is_banned_db 5 d = true ∧
  new_member_handler env msg (start d)
  = (Returned tt, {| db := d; user_msg_times := ∅; calls := [BanChatMember 7 5] |}).
Proof. split; reflexivity. Qed.

(** C6 (amended): when one member joins and is banned in the store, the
    handler makes the ban call, then the unban call when the ban call
    returned, sends no welcome and leaves the store as it was; when the
    member is not banned it sends the welcome. *)
Theorem new_member_handler_spec (env : Env) (msg : Message) (m : Z) (w : World) :
  new_chat_members msg = [m] →
  (is_banned_db m (db w) = true →
   fst (new_member_handler env msg w) = Returned tt ∧
   db (snd (new_member_handler env msg w)) = db w ∧
   calls (snd (new_member_handler env msg w))
   = calls w ++ BanChatMember (chat_id msg) m ::
       (if gateway env (BanChatMember (chat_id msg) m)
        then [UnbanChatMember (chat_id msg) m] else [])) ∧
  (is_banned_db m (db w) = false →
   db (snd (new_member_handler env msg w)) = db w ∧
   calls (snd (new_member_handler env msg w))
   = calls w ++ [ReplyText (chat_id msg) (Welcome m)]).
Proof.
  intros Hm. unfold new_member_handler. rewrite Hm.
  unfold for_each_member, greet_or_remove. run_m.
  split; intros ->; simpl.
  - destruct (gateway env (BanChatMember (chat_id msg) m)); simpl.
    + rewrite <- app_assoc.
      by destruct (gateway env (UnbanChatMember (chat_id msg) m)).
    + done.
  - by destruct (gateway env (ReplyText (chat_id msg) (Welcome m))).
Qed.

Lemma new_member_handler_spec_witness :
  calls (snd (new_member_handler
                {| gateway := fun _ => true; utcnow := 0; CURRENT_TIMESTAMP := 0 |}
                {| chat_id := 7; from_user := 5; text := None; message_id := 9;
                   new_chat_members := [5] |}
                (start (ban_user_db 0 5 "spam" empty_store))))
  = [BanChatMember 7 5; UnbanChatMember 7 5].
Proof.
  apply (new_member_handler_spec
           {| gateway := fun _ => true; utcnow := 0; CURRENT_TIMESTAMP := 0 |}
           {| chat_id := 7; from_user := 5; text := None; message_id := 9;
              new_chat_members := [5] |} 5
           (start (ban_user_db 0 5 "spam" empty_store))); reflexivity.
Defined.

Section Respects.
Context (R : World → World → Prop).

Lemma respects_ret {A} (a : A) : respects R (ret a).
Proof. by intros w1 w2 HR. Qed.

Lemma respects_bind {A B} (m : M A) (k : A → M B) :
  respects R m → (∀ a, respects R (k a)) → respects R (bind m k).
Proof.
  intros Hm Hk w1 w2 HR. unfold bind.
  destruct (Hm w1 w2 HR) as [Ho Hw].
  destruct (m w1) as [o1 w1'], (m w2) as [o2 w2']. simpl in *. subst o2.
  destruct o1 as [a|]; [by apply Hk | done].
Qed.

Lemma respects_try_except {A} (body handler : M A) :
  respects R body → respects R handler → respects R (try_except body handler).
Proof.
  intros Hb Hh w1 w2 HR. unfold try_except.
  destruct (Hb w1 w2 HR) as [Ho Hw].
  destruct (body w1) as [o1 w1'], (body w2) as [o2 w2']. simpl in *. subst o2.
  destruct o1 as [a|]; [done | by apply Hh].
Qed.
End Respects.

Section BansApart.
Context (user : Z) (b1 b2 : gmap Z BanRecord).

Lemma bans_apart_bot env a : respects (bans_apart user b1 b2) (bot env a).
Proof.
  intros w1 w2 (Ht & Hc & Hw & Hl & Hb). unfold bot, bans_apart. simpl.
  by rewrite Hc.
Qed.

Lemma bans_apart_track env u : respects (bans_apart user b1 b2) (track env u).
Proof.
  intros w1 w2 (Ht & Hc & Hw & Hl & Hb). unfold track. rewrite Ht.
  by destruct (add_message_time _ _ _).
Qed.

Lemma bans_apart_warn ts u : respects (bans_apart user b1 b2) (exec_ret (warn_user_db ts u)).
Proof.
  intros w1 w2 (Ht & Hc & Hw & Hl & Hb). unfold exec_ret, warn_user_db.
  rewrite Hw. destruct (warns (db w2) !! u);
    unfold bans_apart; simpl; by rewrite Hw.
Qed.

Lemma bans_apart_ban ts why : respects (bans_apart user b1 b2) (exec (ban_user_db ts user why)).
Proof.
  intros w1 w2 (Ht & Hc & Hw & Hl & row & H1 & H2).
  unfold exec, bans_apart. simpl. split_and!; try done.
  exists (Some {| reason := why; banned_at := ts |}). rewrite H1, H2.
  destruct row; simpl; by rewrite ?insert_insert_eq.
Qed.

Lemma bans_apart_links t : respects (bans_apart user b1 b2) (query (contains_allowed_link t)).
Proof.
  intros w1 w2 (Ht & Hc & Hw & Hl & Hb).
  unfold query, contains_allowed_link, list_allowed_links. simpl.
  by rewrite Hl.
Qed.

Lemma bans_apart_spam_branch env chat : respects (bans_apart user b1 b2) (spam_branch env chat user).
Proof.
  unfold spam_branch.
  apply respects_bind; [apply bans_apart_warn|]. intros warned.
  apply respects_bind; [apply bans_apart_bot|]. intros _.
  destruct (3 <=? warned); [|apply respects_ret].
  apply respects_try_except; [|apply bans_apart_bot].
  repeat (apply respects_bind; intros);
    auto using bans_apart_bot, bans_apart_ban.
Qed.

Lemma bans_apart_link_branch env chat message t :
  respects (bans_apart user b1 b2) (link_branch env chat user message t).
Proof.
  unfold link_branch.
  apply respects_bind; [apply bans_apart_links|]. intros [|]; [apply respects_ret|].
  apply respects_bind.
  { apply respects_try_except; [apply bans_apart_bot | apply respects_ret]. }
  intros _. apply respects_bind.
  { apply respects_try_except; repeat (apply respects_bind; intros);
      auto using bans_apart_bot, bans_apart_ban, respects_ret. }
  intros [|]; [|apply respects_ret].
  apply respects_bind; [|intros; apply bans_apart_bot].
  apply respects_try_except; [apply bans_apart_bot | apply respects_ret].
Qed.
End BansApart.

Lemma bans_apart_message_handler cfg env msg b1 b2 :
  respects (bans_apart (from_user msg) b1 b2) (message_handler cfg env (Some msg)).
Proof.
  unfold message_handler.
  destruct (text msg) as [[|c t]|]; try apply respects_ret.
  destruct (negb _ && negb _); [apply respects_ret|].
  case_bool_decide; [apply respects_ret|].
  apply respects_bind; [apply bans_apart_track|]. intros n.
  destruct (SPAM_MAX cfg <? n); [apply bans_apart_spam_branch|].
  destruct (LINK_REGEX_findall _).
  - destruct (has_keyword _); [apply bans_apart_bot | apply respects_ret].
  - apply bans_apart_link_branch.
Qed.

(** C8: the handler never reads the bans table.  Run on two worlds that
    differ only in that table, it returns or raises alike, makes the same
    calls, leaves the same message times, warns and links, and writes the
    same row, or none, into either bans table. *)
Theorem message_handler_ignores_bans
    (cfg : Config) (env : Env) (update_message : option Message) (w : World)
    (b1 b2 : gmap Z BanRecord) :
  let r1 := message_handler cfg env update_message (with_bans b1 w) in
  let r2 := message_handler cfg env update_message (with_bans b2 w) in
  fst r1 = fst r2 ∧
  calls (snd r1) = calls (snd r2) ∧
  user_msg_times (snd r1) = user_msg_times (snd r2) ∧
  warns (db (snd r1)) = warns (db (snd r2)) ∧
  links (db (snd r1)) = links (db (snd r2)) ∧
  ∃ user row,
    bans (db (snd r1)) = upsert_ban user row b1 ∧
    bans (db (snd r2)) = upsert_ban user row b2.
Proof.
  destruct update_message as [msg|].
  - assert (bans_apart (from_user msg) b1 b2 (with_bans b1 w) (with_bans b2 w)) as HR.
    { unfold bans_apart, with_bans. simpl. split_and!; try done. by exists None. }
    apply (bans_apart_message_handler cfg env msg) in HR
      as (Ho & Ht & Hc & Hw & Hl & row & Hb).
    simpl. split_and!; try done. by exists (from_user msg), row.
  - simpl. split_and!; try done. by exists 0, None.
Qed.

Lemma chat_filter_passes (cfg : Config) (chat : Z) :
  ALLOWED_CHAT_IDS cfg = [] ∨ chat ∈ ALLOWED_CHAT_IDS cfg →
  negb (bool_decide (ALLOWED_CHAT_IDS cfg = []))
  && negb (bool_decide (chat ∈ ALLOWED_CHAT_IDS cfg)) = false.
Proof.
  intros H. apply andb_false_iff.
  rewrite !negb_false_iff, !bool_decide_eq_true. done.
Qed.

Ltac pass_filters Hchat Hown :=
  rewrite (chat_filter_passes _ _ Hchat);
  rewrite (bool_decide_eq_false_2 _ Hown).

Lemma message_handler_spam_path cfg env msg t w :
  is_moderated cfg msg t →
  SPAM_MAX cfg < fst (add_message_time (utcnow env) (from_user msg) (user_msg_times w)) →
  message_handler cfg env (Some msg) w
  = spam_branch env (chat_id msg) (from_user msg) (snd (track env (from_user msg) w)).
Proof.
  intros (Ht & Hne & Hchat & Hown) Hn. unfold message_handler. rewrite Ht.
  destruct t as [|c t]; [done|]. pass_filters Hchat Hown.
  unfold bind at 1, track.
  destruct (add_message_time _ _ _) as [n times']. simpl in *.
  by rewrite (proj2 (Z.ltb_lt _ _) Hn).
Qed.

Lemma classify_disallowed (t : str) (d : Store) :
  classify t d = Disallowed →
  LINK_REGEX_findall (lower t) ≠ [] ∧ contains_allowed_link (lower t) d = false.
Proof.
  unfold classify. destruct (LINK_REGEX_findall (lower t)); [done|].
  by destruct (contains_allowed_link (lower t) d).
Qed.

Lemma message_handler_link_path cfg env msg t w :
  is_moderated cfg msg t →
  fst (add_message_time (utcnow env) (from_user msg) (user_msg_times w)) ≤ SPAM_MAX cfg →
  classify t (db w) = Disallowed →
  message_handler cfg env (Some msg) w
  = link_branch env (chat_id msg) (from_user msg) (message_id msg) (lower t)
      (snd (track env (from_user msg) w)).
Proof.
  intros (Ht & Hne & Hchat & Hown) Hn [Hfound _]%classify_disallowed.
  unfold message_handler. rewrite Ht.
  destruct t as [|c t]; [done|]. pass_filters Hchat Hown.
  unfold bind at 1, track.
  destruct (add_message_time _ _ _) as [n times']. simpl in *.
  rewrite (proj2 (Z.ltb_ge _ _) Hn).
  by destruct (LINK_REGEX_findall _).
Qed.

Lemma warn_user_db_bans (ts u : Z) (d : Store) :
  bans (snd (warn_user_db ts u d)) = bans d.
Proof. unfold warn_user_db. by destruct (warns d !! u). Qed.


Lemma spam_branch_ban env chat user w :
  3 ≤ fst (warn_user_db (CURRENT_TIMESTAMP env) user (db w)) →
  gateway env (ReplyText chat
     (WarnNotice (fst (warn_user_db (CURRENT_TIMESTAMP env) user (db w))))) = true →
  BanChatMember chat user ∈ calls (snd (spam_branch env chat user w)) ∧
  (gateway env (BanChatMember chat user) = false →
   bans (db (snd (spam_branch env chat user w))) = bans (db w) ∧
   last (calls (snd (spam_branch env chat user w))) = Some (ReplyText chat FailedToBan)) ∧
  (gateway env (BanChatMember chat user) = true →
   bans (db (snd (spam_branch env chat user w)))
   = <[user := {| reason := "spam"; banned_at := CURRENT_TIMESTAMP env |}]> (bans (db w))).
Proof.
  pose proof (warn_user_db_bans (CURRENT_TIMESTAMP env) user (db w)) as Hb.
  unfold spam_branch. run_m.
  destruct (warn_user_db _ _ _) as [warned d1]. simpl in *.
  intros Hw ->. simpl. rewrite (proj2 (Z.leb_le _ _) Hw). simpl.
  destruct (gateway env (BanChatMember chat user)); simpl.
  - destruct (gateway env (ReplyText chat (SpamBanNotice user))); simpl;
      (split_and!; [set_solver | done | by rewrite Hb]).
  - split_and!; [set_solver | | done]. intros _. split; [done|].
    by rewrite last_snoc.
Qed.







(** C2 (code bug): the handler decides to ban and the client refuses the ban
    call.  On the link path and on the spam path alike the ban call was made
    and the store holds no ban for the user, where the claim has the ban
    recorded; the owner's [/ban], refused in the same way, does record
    it. *)
Theorem automatic_ban_lost_when_refused :
  let link_run := message_handler sample_cfg refusing_env
                    (Some (sample_msg "see http://evil.example")) (start empty_store) in
  let spam_run := message_handler sample_cfg refusing_env
                    (Some (sample_msg "hello")) flooded in
  let owner_run := cmd_ban sample_cfg (cmd_env refusing_env true None)
                     (command_of 1 ["5"]) (command_start empty_store) in
  (classify (py "see http://evil.example") empty_store = Disallowed ∧
   BanChatMember 7 5 ∈ calls (snd link_run) ∧
   is_banned_db 5 (db (snd link_run)) = false) ∧
  (fst (warn_user_db 0 5 (db flooded)) = 3 ∧
   BanChatMember 7 5 ∈ calls (snd spam_run) ∧
   is_banned_db 5 (db (snd spam_run)) = false) ∧
  (Moderate (BanChatMember 7 5) ∈ cmd_calls (snd owner_run) ∧
   is_banned_db 5 (cmd_db (snd owner_run)) = true).
Proof.
  split_and!; try reflexivity.
  - apply list_elem_of_In. vm_compute. tauto.
  - apply list_elem_of_In. vm_compute. tauto.
  - apply list_elem_of_In. vm_compute. tauto.
Qed.

(** * Further properties *)

(** ** The allow-list *)

Lemma set_links_id (f : list str → list str) (d : Store) :
  f (links d) = links d → set_links f d = d.
Proof. intros H. destruct d as [b w l]. unfold set_links. simpl in *. by rewrite H. Qed.

Lemma filter_other_id (link : str) (ls : list str) :
  link ∉ ls → filter (fun l => l ≠ link) ls = ls.
Proof.
  induction ls as [|l ls IH]; [done|]. intros Hnot.
  apply not_elem_of_cons in Hnot as [Hne Hnot].
  rewrite filter_cons_True by done. by rewrite IH.
Qed.

Lemma elem_of_insert_link (l link : str) (ls : list str) :
  l ∈ insert_link link ls ↔ l = link ∨ l ∈ ls.
Proof.
  induction ls as [|l0 ls IH]; simpl.
  - rewrite list_elem_of_singleton, elem_of_nil. tauto.
  - destruct (str_ltb link l0).
    + by rewrite elem_of_cons.
    + rewrite !elem_of_cons, IH. tauto.
Qed.

Lemma NoDup_insert_link (link : str) (ls : list str) :
  link ∉ ls → NoDup ls → NoDup (insert_link link ls).
Proof.
  intros Hnot Hnd. induction Hnd as [|l0 ls Hl0 Hnd IH]; simpl.
  - apply NoDup_singleton.
  - apply not_elem_of_cons in Hnot as [Hne Hnot].
    destruct (str_ltb link l0).
    + apply NoDup_cons. split; [|by apply NoDup_cons].
      rewrite elem_of_cons. tauto.
    + apply NoDup_cons. split; [|by apply IH].
      rewrite elem_of_insert_link. intros [-> | Hin]; done.
Qed.

Lemma filter_insert_link (link : str) (ls : list str) :
  link ∉ ls → filter (fun l => l ≠ link) (insert_link link ls) = ls.
Proof.
  induction ls as [|l0 ls IH]; intros Hnot; simpl.
  - by rewrite filter_cons_False by (intros H; by apply H).
  - apply not_elem_of_cons in Hnot as [Hne Hnot].
    destruct (str_ltb link l0).
    + rewrite filter_cons_False by (intros H; by apply H).
      rewrite filter_cons_True by done. by rewrite filter_other_id.
    + rewrite filter_cons_True by done. by rewrite IH.
Qed.

Lemma str_ltb_asym (a b : str) : str_ltb a b = true → str_ltb b a = false.
Proof.
  revert b. induction a as [|x a IH]; intros [|y b]; simpl; try done.
  destruct (N.ltb_spec (N_of_ascii x) (N_of_ascii y)),
           (N.ltb_spec (N_of_ascii y) (N_of_ascii x)); try done; try lia.
  apply IH.
Qed.

Lemma HdRel_insert_link (a link : str) (ls : list str) :
  HdRel link_order a ls → link_order a link → HdRel link_order a (insert_link link ls).
Proof.
  intros Hhd Ha. destruct ls as [|l0 ls]; simpl; [by constructor|].
  destruct (str_ltb link l0); constructor; [done|]. by inversion Hhd.
Qed.

Lemma Sorted_insert_link (link : str) (ls : list str) :
  Sorted link_order ls → Sorted link_order (insert_link link ls).
Proof.
  induction 1 as [|l0 ls Hs IH Hhd]; simpl; [by repeat constructor|].
  destruct (str_ltb link l0) eqn:E.
  - constructor; [by constructor|]. constructor. by apply str_ltb_asym.
  - constructor; [done|]. by apply HdRel_insert_link.
Qed.

(** X1: adding a link keeps the table free of duplicates and leaves the link
    in it; adding it again changes nothing; no other link is lost; and a
    table in the order of its index stays in that order. *)
Theorem add_allowed_link_once (link : str) (d : Store) :
  NoDup (list_allowed_links d) →
  link ∈ list_allowed_links (add_allowed_link link d) ∧
  NoDup (list_allowed_links (add_allowed_link link d)) ∧
  add_allowed_link link (add_allowed_link link d) = add_allowed_link link d ∧
  (∀ l, l ∈ list_allowed_links d → l ∈ list_allowed_links (add_allowed_link link d)) ∧
  (Sorted link_order (list_allowed_links d) →
   Sorted link_order (list_allowed_links (add_allowed_link link d))).
Proof.
  intros Hnd. unfold add_allowed_link, list_allowed_links in *. simpl.
  split_and!; [| | | |intros Hs; case_bool_decide; [done | by apply Sorted_insert_link]].
  - case_bool_decide; [done|]. apply elem_of_insert_link. by left.
  - case_bool_decide; [done|]. by apply NoDup_insert_link.
  - apply set_links_id. simpl.
    destruct (bool_decide (link ∈ links d)) eqn:Hin.
    + by rewrite Hin.
    + rewrite bool_decide_eq_true_2; [done|]. apply elem_of_insert_link. by left.
  - intros l Hl. case_bool_decide; [done|]. apply elem_of_insert_link. by right.
Qed.

Lemma add_allowed_link_once_witness :
  list_allowed_links
    (add_allowed_link (py "a.example")
       (add_allowed_link (py "a.example") (add_allowed_link (py "b.example") empty_store)))
  = [py "a.example"; py "b.example"].
Proof.
  destruct (add_allowed_link_once (py "a.example")
              (add_allowed_link (py "b.example") empty_store))
    as (_ & _ & -> & _).
  { unfold list_allowed_links. simpl. apply NoDup_ListNoDup.
    repeat constructor; simpl; intuition discriminate. }
  reflexivity.
Defined.

(** X2: after removing a link it is not in the table, every other link is
    there exactly when it was before, removing a link that is not there
    leaves the store as it is, and so does removing twice. *)
Theorem remove_allowed_link_spec (link : str) (d : Store) :
  (link ∉ list_allowed_links (remove_allowed_link link d)) ∧
  (∀ l, l ≠ link →
        (l ∈ list_allowed_links (remove_allowed_link link d) ↔
         l ∈ list_allowed_links d)) ∧
  (link ∉ list_allowed_links d → remove_allowed_link link d = d) ∧
  remove_allowed_link link (remove_allowed_link link d) = remove_allowed_link link d.
Proof.
  unfold remove_allowed_link, list_allowed_links. simpl. split_and!.
  - rewrite list_elem_of_filter. tauto.
  - intros l Hl. rewrite list_elem_of_filter. tauto.
  - intros Hnot. apply set_links_id. by apply filter_other_id.
  - apply set_links_id. simpl. apply filter_other_id.
    rewrite list_elem_of_filter. tauto.
Qed.

(** X3: adding a link that was not in the table and removing it again gives
    back the store as it was. *)
Theorem add_remove_round_trip (link : str) (d : Store) :
  link ∉ list_allowed_links d →
  remove_allowed_link link (add_allowed_link link d) = d.
Proof.
  intros Hnot. unfold remove_allowed_link, add_allowed_link, list_allowed_links in *.
  destruct d as [b w ls]. unfold set_links. simpl in *.
  rewrite bool_decide_eq_false_2 by done. f_equal.
  by apply filter_insert_link.
Qed.

Lemma add_remove_round_trip_witness :
  remove_allowed_link (py "a.example")
    (add_allowed_link (py "a.example") (add_allowed_link (py "b.example") empty_store))
  = add_allowed_link (py "b.example") empty_store.
Proof.
  apply (add_remove_round_trip (py "a.example")
           (add_allowed_link (py "b.example") empty_store)).
  unfold list_allowed_links. simpl.
  intros [=]%list_elem_of_singleton.
Defined.

(** ** One user's rows *)

(** X4: banning, unbanning, warning or resetting one user leaves every other
    user's ban and warn rows, and the other tables, as they were. *)
Theorem store_rows_of_others (d : Store) (ts u v : Z) (why : string) :
  u ≠ v →
  (bans (ban_user_db ts u why d) !! v = bans d !! v ∧
   warns (ban_user_db ts u why d) = warns d ∧
   links (ban_user_db ts u why d) = links d) ∧
  (bans (unban_user_db u d) !! v = bans d !! v ∧
   warns (unban_user_db u d) = warns d ∧
   links (unban_user_db u d) = links d) ∧
  (warns (snd (warn_user_db ts u d)) !! v = warns d !! v ∧
   bans (snd (warn_user_db ts u d)) = bans d ∧
   links (snd (warn_user_db ts u d)) = links d) ∧
  (warns (reset_warns_db u d) !! v = warns d !! v ∧
   bans (reset_warns_db u d) = bans d ∧
   links (reset_warns_db u d) = links d).
Proof.
  intros Hne. unfold ban_user_db, unban_user_db, warn_user_db, reset_warns_db.
  destruct (warns d !! u); simpl;
    by rewrite !lookup_insert_ne, !lookup_delete_ne by done.
Qed.

Lemma store_rows_of_others_witness :
  bans (unban_user_db 5 (ban_user_db 0 6 "spam" empty_store)) !! 6
  = bans (ban_user_db 0 6 "spam" empty_store) !! 6.
Proof.
  apply (store_rows_of_others (ban_user_db 0 6 "spam" empty_store) 0 5 6 "spam").
  done.
Defined.

(** ** The spam tracker, further *)

Lemma add_message_time_same_deque (now u : Z) (times times' : gmap Z (list Z)) :
  times !! u = times' !! u →
  fst (add_message_time now u times) = fst (add_message_time now u times') ∧
  snd (add_message_time now u times) !! u = snd (add_message_time now u times') !! u.
Proof.
  intros H. unfold add_message_time. cbn [fst snd].
  by rewrite !lookup_insert_eq, H.
Qed.

Lemma run_calls_isolated (calls : list (Z * Z)) (u : Z) (times times' : gmap Z (list Z)) :
  times !! u = times' !! u →
  counts_for u calls (fst (run_calls calls times))
  = fst (run_calls (filter (fun c => fst c = u) calls) times').
Proof.
  revert times times'. induction calls as [|[v t] calls IH]; intros times times' H; [done|].
  cbn [run_calls].
  destruct (add_message_time t v times) as [c times1] eqn:E1.
  destruct (run_calls calls times1) as [cs times2] eqn:E2.
  unfold counts_for. cbn [fst zip zip_with]. rewrite !filter_cons. cbn [fst].
  case_decide as Hv.
  - subst v. cbn [run_calls fmap list_fmap snd].
    destruct (add_message_time t u times') as [c' times1'] eqn:E1'.
    destruct (run_calls (filter (fun c => fst c = u) calls) times1') as [cs' times2'] eqn:E2'.
    destruct (add_message_time_same_deque t u times times' H) as [Hc Ht].
    rewrite E1, E1' in Hc, Ht. cbn [fst snd] in *. subst c'.
    cbn [fst]. f_equal.
    specialize (IH times1 times1' Ht). rewrite E2, E2' in IH. exact IH.
  - specialize (IH times1 times').
    rewrite E2 in IH. apply IH.
    replace times1 with (snd (add_message_time t v times)) by by rewrite E1.
    unfold add_message_time. cbn [snd]. by rewrite lookup_insert_ne.
Qed.

(** X5: the counts a user gets are those the user would get alone: the calls
    of other users, however many and whenever, change none of them. *)
Theorem counts_are_per_user (calls : list (Z * Z)) (u : Z) :
  counts_for u calls (fst (run_calls calls ∅))
  = fst (run_calls (filter (fun c => fst c = u) calls) ∅).
Proof. by apply run_calls_isolated. Qed.

(** X6: the window invariant.  When the deque of the user is in time order
    and holds no time after the clock reading, the deque left by the call is
    again in time order and every time in it lies within the last sixty
    seconds. *)
Theorem window_invariant (now u : Z) (times : gmap Z (list Z)) :
  StronglySorted Z.le (default [] (times !! u)) →
  Forall (fun t => t ≤ now) (default [] (times !! u)) →
  ∃ dq, snd (add_message_time now u times) !! u = Some dq ∧
        StronglySorted Z.le dq ∧
        Forall (fun t => now - WINDOW ≤ t ≤ now) dq.
Proof.
  intros Hs Hle. unfold add_message_time. cbn [snd].
  rewrite lookup_insert_eq. eexists. split; [done|].
  assert (StronglySorted Z.le (default [] (times !! u) ++ [now])) as Hs'.
  { apply StronglySorted_app_2; [|done|repeat constructor].
    intros x1 x2 H1 ->%list_elem_of_singleton.
    rewrite Forall_forall in Hle. by apply Hle. }
  rewrite evict_sorted by done. split.
  - by apply StronglySorted_filter_le.
  - apply Forall_forall. intros t [Hc Hin]%list_elem_of_filter. split; [done|].
    apply elem_of_app in Hin as [Hin | ->%list_elem_of_singleton]; [|lia].
    rewrite Forall_forall in Hle. by apply Hle.
Qed.

Lemma window_invariant_witness :
  ∃ dq, snd (add_message_time 70000000 5 {[ 5 := [0; 30000000] ]}) !! 5 = Some dq ∧
        StronglySorted Z.le dq ∧
        Forall (fun t => 70000000 - WINDOW ≤ t ≤ 70000000) dq.
Proof.
  apply (window_invariant 70000000 5 {[ 5 := [0; 30000000] ]}).
  - rewrite lookup_singleton_eq. simpl. repeat constructor; done.
  - rewrite lookup_singleton_eq. simpl. repeat constructor; done.
Defined.

Lemma evict_front (cutoff : Z) (dq : list Z) :
  ∃ evicted, dq = evicted ++ evict cutoff dq ∧
             Forall (fun t => t < cutoff) evicted ∧
             match evict cutoff dq with
             | [] => True
             | t0 :: _ => cutoff ≤ t0
             end.
Proof.
  induction dq as [|t0 dq (evicted & Heq & Hall & Hhd)]; simpl.
  - exists []. done.
  - destruct (Z.ltb_spec t0 cutoff) as [Hlt | Hge].
    + exists (t0 :: evicted). split_and!; [by rewrite Heq at 1 | by constructor | done].
    + exists []. done.
Qed.

(** X7: what a call evicts, in time order or not: the deque left is the old
    deque with the new time appended, less a front part made of times older
    than the cutoff only; it is not empty and its first time is not older
    than the cutoff.  Times behind that first one are kept whatever their
    age. *)
Theorem eviction_is_from_the_front (now u : Z) (times : gmap Z (list Z)) :
  ∃ evicted t0 rest,
    default [] (times !! u) ++ [now] = evicted ++ t0 :: rest ∧
    snd (add_message_time now u times) !! u = Some (t0 :: rest) ∧
    Forall (fun t => t < now - WINDOW) evicted ∧
    now - WINDOW ≤ t0.
Proof.
  unfold add_message_time. cbn [snd]. rewrite lookup_insert_eq.
  destruct (evict_front (now - WINDOW) (default [] (times !! u) ++ [now]))
    as (evicted & Heq & Hall & Hhd).
  pose proof (evict_keeps_last (now - WINDOW) now (default [] (times !! u))) as Hlast.
  pose proof WINDOW_nonneg.
  destruct (evict (now - WINDOW) (default [] (times !! u) ++ [now])) as [|t0 rest].
  - discriminate Hlast. lia.
  - exists evicted, t0, rest. done.
Qed.

Example stale_time_is_kept :
  fst (add_message_time 100000000 5 {[ 5 := [90000000; 0] ]}) = 3.
Proof. reflexivity. Qed.

Lemma run_calls_last_count (calls : list (Z * Z)) (u tn : Z) :
  StronglySorted Z.le (times_of u (calls ++ [(u, tn)])) →
  last (fst (run_calls (calls ++ [(u, tn)]) ∅))
  = Some (Z.of_nat (length (filter (fun ti => tn - WINDOW ≤ ti)
                                   (times_of u calls))) + 1).
Proof.
  intros Hs.
  pose proof (run_calls_window (calls ++ [(u, tn)]) u Hs) as Hw.
  rewrite run_calls_snoc in *. cbn [fst snd] in *.
  rewrite last_snoc. f_equal.
  rewrite times_of_snoc in *. rewrite decide_True in * by done.
  rewrite last_snoc in Hw.
  unfold add_message_time in *. cbn [fst snd] in *.
  rewrite lookup_insert_eq in Hw. simpl in Hw. rewrite Hw.
  pose proof WINDOW_nonneg.
  rewrite filter_app, length_app, filter_cons_True by lia.
  simpl. lia.
Qed.

Lemma filter_all_kept (P : Z → Prop) `{!∀ x, Decision (P x)} (l : list Z) :
  Forall P l → filter P l = l.
Proof.
  induction 1 as [|x l Hx Hall IH]; [done|].
  rewrite filter_cons_True by done. by rewrite IH.
Qed.

Lemma filter_none_kept (P : Z → Prop) `{!∀ x, Decision (P x)} (l : list Z) :
  Forall (fun x => ¬ P x) l → filter P l = [].
Proof.
  induction 1 as [|x l Hx Hall IH]; [done|].
  by rewrite filter_cons_False.
Qed.

(** X8: bursts and pauses.  With the user's times in order: when all earlier
    times lie within sixty seconds before a call, the call returns the number
    of the user's calls so far, itself included; when all of them are more
    than sixty seconds old, it returns 1. *)
Theorem burst_and_pause (calls : list (Z * Z)) (u tn : Z) :
  Sorted Z.le (times_of u (calls ++ [(u, tn)])) →
  (Forall (fun t => tn - WINDOW ≤ t) (times_of u calls) →
   last (fst (run_calls (calls ++ [(u, tn)]) ∅))
   = Some (Z.of_nat (length (times_of u calls)) + 1)) ∧
  (Forall (fun t => t < tn - WINDOW) (times_of u calls) →
   last (fst (run_calls (calls ++ [(u, tn)]) ∅)) = Some 1).
Proof.
  intros Hs. apply Sorted_StronglySorted in Hs; [|apply _].
  rewrite (run_calls_last_count calls u tn Hs). split; intros Hall.
  - by rewrite filter_all_kept.
  - rewrite filter_none_kept; [done|].
    eapply Forall_impl; [exact Hall|]. intros t Ht. simpl in *. lia.
Qed.

Lemma burst_and_pause_witness :
  last (fst (run_calls ([(5, 0); (6, 1); (5, 2000000)] ++ [(5, 9000000)]) ∅)) = Some 3 ∧
  last (fst (run_calls ([(5, 0); (6, 1); (5, 2000000)] ++ [(5, 90000000)]) ∅)) = Some 1.
Proof.
  split.
  - apply (burst_and_pause [(5, 0); (6, 1); (5, 2000000)] 5 9000000).
    + repeat constructor; done.
    + repeat constructor; done.
  - apply (burst_and_pause [(5, 0); (6, 1); (5, 2000000)] 5 90000000).
    + repeat constructor; done.
    + repeat constructor; done.
Defined.

(** ** The link filter, further *)

Lemma non_space_run_stops (s : str) :
  ∃ post, s = non_space_run s ++ post ∧
          match post with
          | [] => True
          | c :: _ => isspace c = true
          end.
Proof.
  induction s as [|c s (post & IH & Hstop)]; simpl; [by exists []|].
  destruct (isspace c) eqn:E; [by exists (c :: s)|].
  exists post. simpl. by rewrite <- IH.
Qed.

Lemma match_tail_longest (s m : str) :
  match_tail s = Some m →
  ∃ run post, m = py "://" ++ run ∧ s = m ++ post ∧ run ≠ [] ∧
              Forall (fun c => isspace c = false) run ∧
              match post with
              | [] => True
              | c :: _ => isspace c = true
              end.
Proof.
  unfold match_tail. destruct (literal (py "://") s) as [r|] eqn:Hl; [|done].
  apply literal_spec in Hl.
  pose proof (non_space_run_all r) as Hall.
  destruct (non_space_run_stops r) as (post & Hpost & Hstop).
  destruct (non_space_run r) as [|c run] eqn:Hr; [done|].
  intros [= <-]. exists (c :: run), post. split_and!; try done.
  by rewrite Hl, Hpost.
Qed.

Lemma match_at_longest (s m : str) :
  match_at s = Some m →
  ∃ run post,
    (m = py "http://" ++ run ∨ m = py "https://" ++ run) ∧
    s = m ++ post ∧ run ≠ [] ∧
    Forall (fun c => isspace c = false) run ∧
    match post with
    | [] => True
    | c :: _ => isspace c = true
    end.
Proof.
  unfold match_at. destruct (literal (py "http") s) as [r|] eqn:Hl; [|done].
  apply literal_spec in Hl. subst s.
  destruct (literal (py "s") r) as [r'|] eqn:Hs.
  - apply literal_spec in Hs. subst r.
    destruct (match_tail r') as [m'|] eqn:Ht; simpl; [|done].
    intros [= <-].
    apply match_tail_longest in Ht as (run & post & -> & -> & Hne & Hall & Hstop).
    exists run, post. split_and!; auto.
  - destruct (match_tail r) as [m'|] eqn:Ht; [|done]. simpl.
    intros [= <-].
    apply match_tail_longest in Ht as (run & post & -> & -> & Hne & Hall & Hstop).
    exists run, post. split_and!; auto.
Qed.

Lemma findall_from_matches (s : str) (skip : nat) (m : str) :
  m ∈ findall_from skip s →
  ∃ pre rest, s = pre ++ rest ∧ match_at rest = Some m.
Proof.
  revert skip. induction s as [|c s IH]; intros skip; simpl.
  - by intros ?%elem_of_nil.
  - assert (∀ k, m ∈ findall_from k s →
                 ∃ pre rest, c :: s = pre ++ rest ∧ match_at rest = Some m) as Hlater.
    { intros k (pre & rest & -> & Hm)%IH. by exists (c :: pre), rest. }
    destruct skip as [|k]; [|by apply Hlater].
    destruct (match_at (c :: s)) as [m'|] eqn:Hm; [|by apply Hlater].
    intros [-> | Hin]%elem_of_cons; [|by eapply Hlater].
    by exists [], (c :: s).
Qed.

(** X9: every link [findall] returns is a piece of the text that starts with
    [http://] or [https://], goes on with one or more non-space characters,
    and ends where the text ends or a space character follows. *)
Theorem findall_returns_links (s m : str) :
  m ∈ LINK_REGEX_findall s →
  ∃ pre run post,
    s = pre ++ m ++ post ∧
    (m = py "http://" ++ run ∨ m = py "https://" ++ run) ∧
    run ≠ [] ∧ Forall (fun c => isspace c = false) run ∧
    match post with
    | [] => True
    | c :: _ => isspace c = true
    end.
Proof.
  intros (pre & rest & -> & Hm)%findall_from_matches.
  apply match_at_longest in Hm as (run & post & Hm & -> & Hne & Hall & Hstop).
  exists pre, run, post. done.
Qed.

Lemma findall_returns_links_witness :
  ∃ pre run post,
    py "see https://a.b/c now" = pre ++ py "https://a.b/c" ++ post ∧
    (py "https://a.b/c" = py "http://" ++ run ∨ py "https://a.b/c" = py "https://" ++ run) ∧
    run ≠ [] ∧ Forall (fun c => isspace c = false) run ∧
    match post with
    | [] => True
    | c :: _ => isspace c = true
    end.
Proof.
  apply (findall_returns_links (py "see https://a.b/c now") (py "https://a.b/c")).
  apply list_elem_of_In. vm_compute. tauto.
Defined.

Lemma allowed_entry_transfer (x : str) (ls ls' : list str) :
  (∀ e, e ∈ lower <$> ls → e ∈ lower <$> ls') →
  (∃ l, l ∈ ls ∧ l ≠ [] ∧ occurs_in (lower l) x) →
  ∃ l, l ∈ ls' ∧ l ≠ [] ∧ occurs_in (lower l) x.
Proof.
  intros Hsub (l & Hin & Hne & Hocc).
  assert (lower l ∈ lower <$> ls') as Hin'.
  { apply Hsub. apply list_elem_of_fmap. by exists l. }
  apply list_elem_of_fmap in Hin' as (l' & Heq & Hin').
  exists l'. split_and!; [done | | by rewrite <- Heq].
  intros ->. by destruct l.
Qed.

(** X10: the verdict depends only on the lowercased text and on the set of
    lowercased entries of the allow-list: capitals in the text or in the
    entries, the order of the entries and repeated entries make no
    difference. *)
Theorem classify_up_to_case_and_order (t t' : str) (d d' : Store) :
  lower t = lower t' →
  (∀ e, e ∈ lower <$> list_allowed_links d ↔ e ∈ lower <$> list_allowed_links d') →
  classify t d = classify t' d'.
Proof.
  intros Ht Hset.
  pose proof (classify_allowed_iff t d) as H.
  pose proof (classify_allowed_iff t' d') as H'.
  rewrite Ht in H.
  assert (classify t d = Allowed ↔ classify t' d' = Allowed) as Hiff.
  { rewrite H, H'. split; (intros [Hno | Hl]; [by left | right]);
      (eapply allowed_entry_transfer; [|exact Hl]); intros e; apply Hset. }
  destruct (classify t d), (classify t' d'); try done.
  - symmetry. by apply Hiff.
  - by apply Hiff.
Qed.

Lemma classify_up_to_case_and_order_witness :
  classify (py "See HTTPS://Example.com/OK") {| bans := ∅; warns := ∅;
      links := [py "other.example"; py "example.com/ok"] |}
  = classify (py "see https://example.com/ok") {| bans := ∅; warns := ∅;
      links := [py "Example.COM/ok"; py "OTHER.example"; py "example.com/ok"] |}.
Proof.
  apply classify_up_to_case_and_order.
  - reflexivity.
  - intros e. unfold list_allowed_links. simpl.
    rewrite !elem_of_cons, !elem_of_nil. vm_compute. tauto.
Defined.


(** ** The handlers, further *)

(** X12: messages the handler leaves alone.  An update without message, a
    message without text, a message in a chat outside a non-empty list of
    allowed chats, and a message of the owner change nothing: no call is
    made, the store and the message times stay as they are (the message is
    not even counted). *)
Theorem message_handler_leaves_alone
    (cfg : Config) (env : Env) (update_message : option Message) (w : World) :
  (update_message = None ∨
   ∃ msg, update_message = Some msg ∧
          (text msg = None ∨ text msg = Some [] ∨
           (ALLOWED_CHAT_IDS cfg ≠ [] ∧ chat_id msg ∉ ALLOWED_CHAT_IDS cfg) ∨
           from_user msg = OWNER_ID cfg)) →
  message_handler cfg env update_message w = (Returned tt, w).
Proof.
  intros [-> | (msg & -> & H)]; [done|].
  unfold message_handler.
  destruct (text msg) as [[|c t]|] eqn:Ht; [done| |done].
  destruct H as [H | [H | [[Hne Hnot] | Hown]]]; [done..| |].
  - by rewrite (bool_decide_eq_false_2 _ Hne), (bool_decide_eq_false_2 _ Hnot).
  - destruct (negb _ && negb _); [done|]. by rewrite (bool_decide_eq_true_2 _ Hown).
Qed.

Lemma message_handler_leaves_alone_witness :
  message_handler sample_cfg refusing_env
    (Some {| chat_id := 7; from_user := 1; text := Some (py "http://evil.example");
             message_id := 9; new_chat_members := [] |}) flooded
  = (Returned tt, flooded).
Proof.
  apply message_handler_leaves_alone. right. eexists. split; [done|].
  do 3 right. reflexivity.
Defined.

Lemma classify_allowed_cases (t : str) (d : Store) :
  classify t d = Allowed →
  LINK_REGEX_findall (lower t) = [] ∨
  (LINK_REGEX_findall (lower t) ≠ [] ∧ contains_allowed_link (lower t) d = true).
Proof.
  unfold classify. destruct (LINK_REGEX_findall (lower t)); [by left|].
  destruct (contains_allowed_link (lower t) d); [by right | done].
Qed.

Lemma message_handler_calm_path cfg env msg t w :
  is_moderated cfg msg t →
  fst (add_message_time (utcnow env) (from_user msg) (user_msg_times w)) ≤ SPAM_MAX cfg →
  message_handler cfg env (Some msg) w
  = match LINK_REGEX_findall (lower t) with
    | [] => if has_keyword (lower t)
            then bot env (ReplyText (chat_id msg) FaqHint) else ret tt
    | _ :: _ => link_branch env (chat_id msg) (from_user msg) (message_id msg) (lower t)
    end (snd (track env (from_user msg) w)).
Proof.
  intros (Ht & Hne & Hchat & Hown) Hn.
  unfold message_handler. rewrite Ht.
  destruct t as [|c t]; [done|]. pass_filters Hchat Hown.
  unfold bind at 1, track.
  destruct (add_message_time _ _ _) as [n times']. simpl in *.
  by rewrite (proj2 (Z.ltb_ge _ _) Hn).
Qed.

(** X13: a message under the threshold that the link filter allows is
    counted and otherwise passes: the store is unchanged; with a link in it
    no call is made at all, without a link the only call can be the reply to
    a keyword. *)
Theorem allowed_message_passes
    (cfg : Config) (env : Env) (msg : Message) (t : str) (w : World) :
  is_moderated cfg msg t →
  fst (add_message_time (utcnow env) (from_user msg) (user_msg_times w)) ≤ SPAM_MAX cfg →
  classify t (db w) = Allowed →
  db (snd (message_handler cfg env (Some msg) w)) = db w ∧
  user_msg_times (snd (message_handler cfg env (Some msg) w))
  = snd (add_message_time (utcnow env) (from_user msg) (user_msg_times w)) ∧
  (has_url (lower t) → calls (snd (message_handler cfg env (Some msg) w)) = calls w) ∧
  (¬ has_url (lower t) →
   calls (snd (message_handler cfg env (Some msg) w))
   = calls w ++ (if has_keyword (lower t)
                 then [ReplyText (chat_id msg) FaqHint] else [])).
Proof.
  intros Hmod Hn Hcl.
  pose proof (LINK_REGEX_findall_spec (lower t)) as Hscan.
  rewrite (message_handler_calm_path cfg env msg t w Hmod Hn).
  assert (snd (track env (from_user msg) w)
          = {| db := db w;
               user_msg_times := snd (add_message_time (utcnow env) (from_user msg)
                                        (user_msg_times w));
               calls := calls w |}) as ->
    by (unfold track; by destruct (add_message_time _ _ _)).
  apply classify_allowed_cases in Hcl as [Hnone | [Hsome Hok]].
  - rewrite Hnone in *.
    assert (¬ has_url (lower t)) as Hno by (intros Hu; by apply Hscan in Hu).
    destruct (has_keyword (lower t)); run_m; by rewrite ?app_nil_r.
  - assert (has_url (lower t)) as Hu by by apply Hscan.
    destruct (LINK_REGEX_findall (lower t)); [done|].
    unfold link_branch. run_m. by rewrite Hok.
Qed.

Lemma allowed_message_passes_witness :
  db (snd (message_handler sample_cfg refusing_env
             (Some (sample_msg "see https://example.com/ok/page"))
             (start (add_allowed_link (py "example.com/ok") empty_store))))
  = add_allowed_link (py "example.com/ok") empty_store.
Proof.
  apply (allowed_message_passes sample_cfg refusing_env
           (sample_msg "see https://example.com/ok/page")
           (py "see https://example.com/ok/page")
           (start (add_allowed_link (py "example.com/ok") empty_store))).
  - split_and!; [reflexivity | done | by left | done].
  - vm_compute. discriminate.
  - reflexivity.
Defined.

(** X11: an allowed entry lets everything through.  A moderated message
    under the threshold whose lowercased text contains the lowercased form
    of a non-empty entry of the allow-list is allowed whatever links it
    holds: the store is unchanged, and when it holds a link no call is made,
    so no message is deleted and nobody is banned for it. *)
Theorem allowed_entry_lets_all_through
    (cfg : Config) (env : Env) (msg : Message) (t l : str) (w : World) :
  is_moderated cfg msg t →
  fst (add_message_time (utcnow env) (from_user msg) (user_msg_times w)) ≤ SPAM_MAX cfg →
  l ∈ list_allowed_links (db w) → l ≠ [] →
  occurs_in (lower l) (lower t) →
  classify t (db w) = Allowed ∧
  db (snd (message_handler cfg env (Some msg) w)) = db w ∧
  (has_url (lower t) → calls (snd (message_handler cfg env (Some msg) w)) = calls w).
Proof.
  intros Hmod Hn Hin Hne Hocc.
  assert (classify t (db w) = Allowed) as Hcl.
  { apply classify_allowed_iff. right. by exists l. }
  split; [done|].
  pose proof (LINK_REGEX_findall_spec (lower t)) as Hscan.
  rewrite (message_handler_calm_path cfg env msg t w Hmod Hn).
  assert (snd (track env (from_user msg) w)
          = {| db := db w;
               user_msg_times := snd (add_message_time (utcnow env) (from_user msg)
                                        (user_msg_times w));
               calls := calls w |}) as ->
    by (unfold track; by destruct (add_message_time _ _ _)).
  apply classify_allowed_cases in Hcl as [Hnone | [Hsome Hok]].
  - rewrite Hnone in *. split.
    + destruct (has_keyword (lower t)); by run_m.
    + intros Hu. by apply Hscan in Hu.
  - destruct (LINK_REGEX_findall (lower t)); [done|].
    unfold link_branch. run_m. by rewrite Hok.
Qed.

Lemma allowed_entry_lets_all_through_witness :
  calls (snd (message_handler sample_cfg willing_env
                (Some (sample_msg "http://evil.example and Example.com/OK too"))
                (start {| bans := ∅; warns := ∅; links := [py "example.com/ok"] |})))
  = [].
Proof.
  refine (proj2 (proj2 (allowed_entry_lets_all_through sample_cfg willing_env
            (sample_msg "http://evil.example and Example.com/OK too")
            (py "http://evil.example and Example.com/OK too") (py "example.com/ok")
            (start {| bans := ∅; warns := ∅; links := [py "example.com/ok"] |})
            _ _ _ _ _)) _).
  - split_and!; [reflexivity | discriminate | by left | discriminate].
  - vm_compute. discriminate.
  - unfold list_allowed_links. simpl. by left.
  - discriminate.
  - apply str_in_spec. reflexivity.
  - apply LINK_REGEX_findall_spec. discriminate.
Defined.

(** X14: the first and the second warning.  A message over the threshold
    whose warning is not yet the third gets the warning and nothing more:
    the one call made is the warn notice with the new count, the new count
    is stored, and nobody is banned. *)
Theorem early_warning_only_warns
    (cfg : Config) (env : Env) (msg : Message) (t : str) (w : World) :
  is_moderated cfg msg t →
  SPAM_MAX cfg < fst (add_message_time (utcnow env) (from_user msg) (user_msg_times w)) →
  fst (warn_user_db (CURRENT_TIMESTAMP env) (from_user msg) (db w)) < 3 →
  calls (snd (message_handler cfg env (Some msg) w))
  = calls w ++ [ReplyText (chat_id msg)
                  (WarnNotice (fst (warn_user_db (CURRENT_TIMESTAMP env)
                                      (from_user msg) (db w))))] ∧
  db (snd (message_handler cfg env (Some msg) w))
  = snd (warn_user_db (CURRENT_TIMESTAMP env) (from_user msg) (db w)) ∧
  bans (db (snd (message_handler cfg env (Some msg) w))) = bans (db w).
Proof.
  intros Hmod Hn Hw.
  rewrite (message_handler_spam_path cfg env msg t w Hmod Hn).
  pose proof (warn_user_db_bans (CURRENT_TIMESTAMP env) (from_user msg) (db w)) as Hb.
  unfold spam_branch, track. run_m.
  destruct (add_message_time _ _ _) as [n times']. cbn [fst snd db].
  destruct (warn_user_db _ _ _) as [warned d1]. cbn [fst snd] in *.
  destruct (gateway env _); simpl; [|done].
  by rewrite (proj2 (Z.leb_gt _ _) Hw).
Qed.

Lemma early_warning_only_warns_witness :
  calls (snd (message_handler sample_cfg willing_env (Some (sample_msg "hello"))
                {| db := empty_store; user_msg_times := {[ 5 := replicate 20 0 ]};
                   calls := [] |}))
  = [] ++ [ReplyText 7 (WarnNotice 1)].
Proof.
  apply (early_warning_only_warns sample_cfg willing_env (sample_msg "hello")
           (py "hello")
           {| db := empty_store; user_msg_times := {[ 5 := replicate 20 0 ]};
              calls := [] |}).
  - split_and!; [reflexivity | done | by left | done].
  - reflexivity.
  - reflexivity.
Defined.

Lemma always_returns_ret {A} (a : A) : always_returns (ret a).
Proof. intros w. by exists a. Qed.

Lemma always_returns_bind {A B} (m : M A) (k : A → M B) :
  always_returns m → (∀ a, always_returns (k a)) → always_returns (bind m k).
Proof.
  intros Hm Hk w. unfold bind. destruct (Hm w) as [a Ha].
  destruct (m w) as [o w']. simpl in Ha. subst o. apply Hk.
Qed.

Lemma always_returns_try_except {A} (body handler : M A) :
  always_returns handler → always_returns (try_except body handler).
Proof.
  intros Hh w. unfold try_except. destruct (body w) as [[a|] w']; [by exists a|].
  apply Hh.
Qed.

Lemma always_returns_reply env chat r :
  replies_return env → always_returns (bot env (ReplyText chat r)).
Proof. intros Hr w. unfold bot. rewrite Hr. by exists tt. Qed.

Lemma always_returns_track env u : always_returns (track env u).
Proof. intros w. unfold track. destruct (add_message_time _ _ _). by eexists. Qed.

Lemma always_returns_exec f : always_returns (exec f).
Proof. intros w. by exists tt. Qed.

Lemma always_returns_exec_ret {A} (f : Store → A * Store) : always_returns (exec_ret f).
Proof. intros w. unfold exec_ret. destruct (f (db w)). by eexists. Qed.

Lemma always_returns_query {A} (f : Store → A) : always_returns (query f).
Proof. intros w. by eexists. Qed.

Lemma always_returns_for_each_member env chat members :
  replies_return env → always_returns (for_each_member env chat members).
Proof.
  intros Hr. induction members as [|m members IH]; [apply always_returns_ret|].
  cbn [for_each_member]. apply always_returns_bind; [|by intros].
  unfold greet_or_remove.
  apply always_returns_bind; [apply always_returns_query|]. intros [|].
  - apply always_returns_try_except, always_returns_ret.
  - by apply always_returns_reply.
Qed.

(** X15: a refusal of the moderation client never escapes a handler.  As
    long as the replies to the chat go through, both handlers return,
    whichever of the ban, unban, delete and private-message calls raise. *)
Theorem handlers_return
    (cfg : Config) (env : Env) (update_message : option Message) (msg : Message)
    (w : World) :
  replies_return env →
  fst (message_handler cfg env update_message w) = Returned tt ∧
  fst (new_member_handler env msg w) = Returned tt.
Proof.
  intros Hr.
  assert (∀ (m : M unit), always_returns m → fst (m w) = Returned tt) as Hunit.
  { intros m Hm. destruct (Hm w) as [[] Ha]. done. }
  split; apply Hunit.
  - unfold message_handler.
    destruct update_message as [msg'|]; [|apply always_returns_ret].
    destruct (text msg') as [[|c t]|]; try apply always_returns_ret.
    destruct (negb _ && negb _); [apply always_returns_ret|].
    case_bool_decide; [apply always_returns_ret|].
    apply always_returns_bind; [apply always_returns_track|]. intros n.
    destruct (SPAM_MAX cfg <? n).
    + unfold spam_branch.
      apply always_returns_bind; [apply always_returns_exec_ret|]. intros warned.
      apply always_returns_bind; [by apply always_returns_reply|]. intros _.
      destruct (3 <=? warned); [|apply always_returns_ret].
      by apply always_returns_try_except, always_returns_reply.
    + destruct (LINK_REGEX_findall _).
      * destruct (has_keyword _);
          [by apply always_returns_reply | apply always_returns_ret].
      * unfold link_branch.
        apply always_returns_bind; [apply always_returns_query|].
        intros [|]; [apply always_returns_ret|].
        apply always_returns_bind;
          [apply always_returns_try_except, always_returns_ret|]. intros _.
        apply always_returns_bind.
        { apply always_returns_try_except.
          apply always_returns_bind; [by apply always_returns_reply|].
          intros _. apply always_returns_ret. }
        intros [|]; [|apply always_returns_ret].
        apply always_returns_bind;
          [apply always_returns_try_except, always_returns_ret|]. intros _.
        by apply always_returns_reply.
  - by apply always_returns_for_each_member.
Qed.

Lemma handlers_return_witness :
  fst (message_handler sample_cfg refusing_env
         (Some (sample_msg "see http://evil.example")) (start empty_store))
  = Returned tt.
Proof.
  apply (handlers_return sample_cfg refusing_env
           (Some (sample_msg "see http://evil.example"))
           (sample_msg "") (start empty_store)).
  intros chat r. reflexivity.
Defined.

Example failed_reply_escapes :
  fst (message_handler sample_cfg
         {| gateway := fun _ => false; utcnow := 0; CURRENT_TIMESTAMP := 0 |}
         (Some (sample_msg "please ban him")) (start empty_store))
  = Raised.
Proof. reflexivity. Qed.

Lemma for_each_member_run env chat members w :
  (∀ m, m ∈ members → is_banned_db m (db w) = false →
        gateway env (ReplyText chat (Welcome m)) = true) →
  for_each_member env chat members w
  = (Returned tt,
     {| db := db w; user_msg_times := user_msg_times w;
        calls := calls w ++ concat (member_calls env chat (db w) <$> members) |}).
Proof.
  revert w. induction members as [|m members IH]; intros w Hw.
  - simpl. rewrite app_nil_r. by destruct w.
  - cbn [for_each_member]. unfold bind at 1.
    assert (greet_or_remove env chat m w
            = (Returned tt,
               {| db := db w; user_msg_times := user_msg_times w;
                  calls := calls w ++ member_calls env chat (db w) m |})) as ->.
    { unfold greet_or_remove, member_calls. run_m.
      destruct (is_banned_db m (db w)) eqn:Hb; simpl.
      - destruct (gateway env (BanChatMember chat m)); simpl; [|done].
        rewrite <- app_assoc. by destruct (gateway env (UnbanChatMember chat m)).
      - rewrite Hw; [done | by left | done]. }
    rewrite IH; simpl.
    + by rewrite <- app_assoc.
    + intros m' Hin. apply Hw. by right.
Qed.

(** X16: several members joining at once.  When the welcome of every member
    who is not banned goes through, the handler deals with the members in
    order, each as if alone (ban call, then unban call when it returned, for
    a banned one; the welcome for the others), returns, and leaves the store
    and the message times untouched. *)
Theorem new_member_handler_each (env : Env) (msg : Message) (w : World) :
  (∀ m, m ∈ new_chat_members msg → is_banned_db m (db w) = false →
        gateway env (ReplyText (chat_id msg) (Welcome m)) = true) →
  new_member_handler env msg w
  = (Returned tt,
     {| db := db w; user_msg_times := user_msg_times w;
        calls := calls w ++
                 concat (member_calls env (chat_id msg) (db w) <$> new_chat_members msg) |}).
Proof. apply for_each_member_run. Qed.

Lemma new_member_handler_each_witness :
  calls (snd (new_member_handler refusing_env
                {| chat_id := 7; from_user := 0; text := None; message_id := 9;
                   new_chat_members := [4; 5; 6] |}
                (start (ban_user_db 0 5 "spam" empty_store))))
  = [ReplyText 7 (Welcome 4); BanChatMember 7 5; ReplyText 7 (Welcome 6)].
Proof.
  rewrite new_member_handler_each; [reflexivity|].
  intros m _ _. reflexivity.
Defined.

(** X17: the removal of a disallowed link.  Under the threshold, with a
    disallowed link and a ban call that returns, the handler makes four
    calls in this order: delete the message, ban the sender, tell the sender
    in private, tell the chat; a failure to delete or to reach the sender
    does not stop it, and the sender is banned in the store. *)
Theorem disallowed_link_removal
    (cfg : Config) (env : Env) (msg : Message) (t : str) (w : World) :
  is_moderated cfg msg t →
  fst (add_message_time (utcnow env) (from_user msg) (user_msg_times w)) ≤ SPAM_MAX cfg →
  classify t (db w) = Disallowed →
  gateway env (BanChatMember (chat_id msg) (from_user msg)) = true →
  calls (snd (message_handler cfg env (Some msg) w))
  = calls w ++ [DeleteMessage (chat_id msg) (message_id msg);
                BanChatMember (chat_id msg) (from_user msg);
                SendMessage (from_user msg) RemovedPM;
                ReplyText (chat_id msg) (LinkRemovedNotice (from_user msg))] ∧
  is_banned_db (from_user msg) (db (snd (message_handler cfg env (Some msg) w))) = true.
Proof.
  intros Hmod Hn Hdis Hban.
  rewrite (message_handler_link_path cfg env msg t w Hmod Hn Hdis).
  apply classify_disallowed in Hdis as [_ Hno].
  unfold link_branch, track. run_m.
  destruct (add_message_time _ _ _) as [n times']. cbn [fst snd db].
  rewrite Hno.
  repeat match goal with
         | |- context [gateway env ?a] => destruct (gateway env a) eqn:?; simpl
         end;
    try congruence;
    rewrite <- !app_assoc; (split; [done|]);
    unfold is_banned_db, ban_user_db; simpl; by rewrite lookup_insert_eq.
Qed.

Lemma disallowed_link_removal_witness :
  calls (snd (message_handler sample_cfg
                {| gateway := fun a => match a with
                                       | DeleteMessage _ _ | SendMessage _ _ => false
                                       | _ => true
                                       end;
                   utcnow := 0; CURRENT_TIMESTAMP := 0 |}
                (Some (sample_msg "see http://evil.example")) (start empty_store)))
  = [] ++ [DeleteMessage 7 9; BanChatMember 7 5; SendMessage 5 RemovedPM;
           ReplyText 7 (LinkRemovedNotice 5)].
Proof.
  apply (disallowed_link_removal sample_cfg _
           (sample_msg "see http://evil.example") (py "see http://evil.example")
           (start empty_store)).
  - split_and!; [reflexivity | done | by left | done].
  - vm_compute. discriminate.
  - reflexivity.
  - reflexivity.
Defined.

Section Keeps.
Context (P : World → World → Prop) (P_refl : ∀ w, P w w)
        (P_trans : ∀ w1 w2 w3, P w1 w2 → P w2 w3 → P w1 w3).

Lemma keeps_ret {A} (a : A) : keeps P (ret a).
Proof. intros w. apply P_refl. Qed.

Lemma keeps_bind {A B} (m : M A) (k : A → M B) :
  keeps P m → (∀ a, keeps P (k a)) → keeps P (bind m k).
Proof.
  intros Hm Hk w. unfold bind. specialize (Hm w).
  destruct (m w) as [[a|] w']; [|done].
  eapply P_trans; [exact Hm | apply Hk].
Qed.

Lemma keeps_try_except {A} (body handler : M A) :
  keeps P body → keeps P handler → keeps P (try_except body handler).
Proof.
  intros Hb Hh w. unfold try_except. specialize (Hb w).
  destruct (body w) as [[a|] w']; [done|].
  eapply P_trans; [exact Hb | apply Hh].
Qed.
End Keeps.

Lemma only_adds_refl w : only_adds w w.
Proof.
  split_and!; [done | done | by eauto using Z.le_refl | exists []; by rewrite app_nil_r].
Qed.

Lemma only_adds_trans w1 w2 w3 : only_adds w1 w2 → only_adds w2 w3 → only_adds w1 w3.
Proof.
  intros (Hl & Hb & Hw & a & Hc) (Hl' & Hb' & Hw' & a' & Hc'). split_and!.
  - congruence.
  - auto.
  - intros u r (r' & Hr' & Hle)%Hw. apply Hw' in Hr' as (r'' & Hr'' & Hle').
    exists r''. split; [done | lia].
  - exists (a ++ a'). by rewrite Hc', Hc, app_assoc.
Qed.

Lemma only_adds_bot env a : keeps only_adds (bot env a).
Proof.
  intros w. unfold bot, only_adds. simpl.
  split_and!; [done | done | by eauto using Z.le_refl | by eexists].
Qed.

Lemma only_adds_track env u : keeps only_adds (track env u).
Proof.
  intros w. unfold track. destruct (add_message_time _ _ _).
  unfold only_adds. simpl.
  split_and!; [done | done | by eauto using Z.le_refl | exists []; by rewrite app_nil_r].
Qed.

Lemma only_adds_query {A} (f : Store → A) : keeps only_adds (query f).
Proof. intros w. apply only_adds_refl. Qed.

Lemma only_adds_ban ts u why : keeps only_adds (exec (ban_user_db ts u why)).
Proof.
  intros w. unfold exec, only_adds, is_banned_db, ban_user_db. simpl.
  split_and!; [done | | by eauto using Z.le_refl | exists []; by rewrite app_nil_r].
  intros v. destruct (decide (u = v)) as [-> | Hne].
  - by rewrite lookup_insert_eq.
  - by rewrite lookup_insert_ne.
Qed.

Lemma only_adds_warn ts u : keeps only_adds (exec_ret (warn_user_db ts u)).
Proof.
  intros w. unfold exec_ret, warn_user_db, only_adds, is_banned_db.
  destruct (warns (db w) !! u) as [row|] eqn:Hrow; simpl;
    (split_and!; [done | done | | exists []; by rewrite app_nil_r]);
    intros v r Hr; (destruct (decide (u = v)) as [<- | Hne];
      [rewrite lookup_insert_eq | rewrite lookup_insert_ne by done; by eauto using Z.le_refl]).
  - eexists. split; [done|]. simpl. assert (r = row) as -> by congruence. lia.
  - congruence.
Qed.

(** X18: the message handler takes nothing back.  Whatever the message and
    whatever the client does, after the handler the allow-list is the same,
    every user who was banned is still banned, no warn count is lower, and
    the calls made before are still on record. *)
Theorem message_handler_only_adds
    (cfg : Config) (env : Env) (update_message : option Message) (w : World) :
  only_adds w (snd (message_handler cfg env update_message w)).
Proof.
  revert w. change (keeps only_adds (message_handler cfg env update_message)).
  pose proof only_adds_refl as Hr. pose proof only_adds_trans as Ht.
  unfold message_handler.
  destruct update_message as [msg|]; [|by apply keeps_ret].
  destruct (text msg) as [[|c t]|]; try by apply keeps_ret.
  destruct (negb _ && negb _); [by apply keeps_ret|].
  case_bool_decide; [by apply keeps_ret|].
  apply keeps_bind; [done | apply only_adds_track |]. intros n.
  destruct (SPAM_MAX cfg <? n).
  - unfold spam_branch.
    apply keeps_bind; [done | apply only_adds_warn |]. intros warned.
    apply keeps_bind; [done | apply only_adds_bot |]. intros _.
    destruct (3 <=? warned); [|by apply keeps_ret].
    apply keeps_try_except; [done | | apply only_adds_bot].
    apply keeps_bind; [done | apply only_adds_bot |]. intros _.
    apply keeps_bind; [done | apply only_adds_ban |]. intros _.
    apply only_adds_bot.
  - destruct (LINK_REGEX_findall _).
    + destruct (has_keyword _); [apply only_adds_bot | by apply keeps_ret].
    + unfold link_branch.
      apply keeps_bind; [done | apply only_adds_query |].
      intros [|]; [by apply keeps_ret|].
      apply keeps_bind; [done | |].
      { apply keeps_try_except; [done | apply only_adds_bot | by apply keeps_ret]. }
      intros _. apply keeps_bind; [done | |].
      { apply keeps_try_except; [done | |].
        - apply keeps_bind; [done | apply only_adds_bot |]. intros _.
          apply keeps_bind; [done | apply only_adds_ban |]. intros _.
          by apply keeps_ret.
        - apply keeps_bind; [done | apply only_adds_bot |]. intros _.
          by apply keeps_ret. }
      intros [|]; [|by apply keeps_ret].
      apply keeps_bind; [done | |].
      { apply keeps_try_except; [done | apply only_adds_bot | by apply keeps_ret]. }
      intros _. apply only_adds_bot.
Qed.

(** ** The owner commands *)

Ltac run_c :=
  unfold cbind, cret, craise, ctry, reply_text, moderate, execute, execute_ret,
    select; simpl.

Lemma owner_only_refuses cfg env cmd w :
  effective_user cmd ≠ OWNER_ID cfg →
  owner_only cfg env cmd w
  = (if says env NotOwner then Returned false else Raised, called (Reply_text NotOwner) w).
Proof.
  intros H. unfold owner_only. rewrite (bool_decide_eq_true_2 _ H). run_c.
  by destruct (says env NotOwner).
Qed.

Lemma owner_only_admits cfg env cmd w :
  effective_user cmd = OWNER_ID cfg → owner_only cfg env cmd w = (Returned true, w).
Proof.
  intros H. unfold owner_only. rewrite bool_decide_eq_false_2; [done|]. by intros Hne.
Qed.

(** X19: the commands are the owner's.  Sent by anyone else, each of the
    eight commands answers that the sender is not the owner and does nothing else:
    the store is unchanged, no lookup and no moderation call is made. *)
Theorem commands_are_owner_only (cfg : Config) (env : CmdEnv) (cmd : Command) (w : CmdWorld) :
  effective_user cmd ≠ OWNER_ID cfg →
  Forall (fun handler : Config → CmdEnv → Command → C unit =>
            snd (handler cfg env cmd w) = called (Reply_text NotOwner) w)
    [cmd_addlink; cmd_removelink; cmd_listlinks; cmd_ban; cmd_unban; cmd_warn;
     cmd_mute; cmd_unmute].
Proof.
  intros Hne. pose proof (owner_only_refuses cfg env cmd w Hne) as Ho.
  repeat constructor;
    [unfold cmd_addlink | unfold cmd_removelink | unfold cmd_listlinks
    | unfold cmd_ban | unfold cmd_unban | unfold cmd_warn
    | unfold cmd_mute | unfold cmd_unmute];
    unfold cbind at 1; rewrite Ho; by destruct (says env NotOwner).
Qed.

Lemma commands_are_owner_only_witness :
  Forall (fun handler : Config → CmdEnv → Command → C unit =>
            snd (handler sample_cfg (cmd_env willing_env true (Some 6))
                   (command_of 5 ["6"]) (command_start empty_store))
            = called (Reply_text NotOwner) (command_start empty_store))
    [cmd_addlink; cmd_removelink; cmd_listlinks; cmd_ban; cmd_unban; cmd_warn;
     cmd_mute; cmd_unmute].
Proof.
  apply (commands_are_owner_only sample_cfg (cmd_env willing_env true (Some 6))
           (command_of 5 ["6"]) (command_start empty_store)).
  discriminate.
Defined.

Lemma int_from_isdigit (s : str) (acc n : Z) :
  int_from acc s = Some n → forallb isdigit_char s = true.
Proof.
  revert acc. induction s as [|c s IH]; intros acc; simpl; [done|].
  unfold decimal, isdigit_char.
  destruct ((48 <=? N_of_ascii c)%N && (N_of_ascii c <=? 57)%N); [|done].
  simpl. apply IH.
Qed.

Lemma int_of_digits_isdigit (s : str) (n : Z) :
  int_of_digits s = Some n → isdigit s = true.
Proof. destruct s as [|c s]; [done|]. apply int_from_isdigit. Qed.

Lemma target_id_of_digits env target n w :
  int_of_digits target = Some n →
  target_id_of env target w = (Returned (Some n), w).
Proof.
  intros H. unfold target_id_of.
  by rewrite (int_of_digits_isdigit _ _ H), H.
Qed.

Lemma cmd_ban_run cfg env cmd target rest n w :
  effective_user cmd = OWNER_ID cfg →
  args cmd = target :: rest →
  int_of_digits target = Some n → n ≠ 0 → fits_sqlite n = true →
  cmd_ban cfg env cmd w
  = (if says env (SayBanned n) then Returned tt else Raised,
     {| cmd_db := ban_user_db (CURRENT_TIMESTAMP (chat_env env)) n
                    ("manual by owner " +:+ pretty (OWNER_ID cfg)) (cmd_db w);
        cmd_calls := cmd_calls w ++
                     [Moderate (BanChatMember (effective_chat cmd) n);
                      Reply_text (SayBanned n)] |}).
Proof.
  intros Hown Hargs Hint Hn Hfits. unfold cmd_ban.
  unfold cbind at 1. rewrite (owner_only_admits cfg env cmd w Hown). simpl.
  rewrite Hargs. unfold cbind at 1.
  rewrite (target_id_of_digits env target n w Hint).
  destruct n as [|p|p]; [done| |]; run_c; rewrite Hfits, Hown; simpl;
    destruct (gateway (chat_env env) _); unfold called; simpl;
    by rewrite <- ?app_assoc.
Qed.

Lemma cmd_unban_run cfg env cmd target rest n w :
  effective_user cmd = OWNER_ID cfg →
  args cmd = target :: rest →
  int_of_digits target = Some n → n ≠ 0 → fits_sqlite n = true →
  cmd_unban cfg env cmd w
  = (if says env (SayUnbanned n) then Returned tt else Raised,
     {| cmd_db := unban_user_db n (cmd_db w);
        cmd_calls := cmd_calls w ++
                     [Moderate (UnbanChatMember (effective_chat cmd) n);
                      Reply_text (SayUnbanned n)] |}).
Proof.
  intros Hown Hargs Hint Hn Hfits. unfold cmd_unban.
  unfold cbind at 1. rewrite (owner_only_admits cfg env cmd w Hown). simpl.
  rewrite Hargs. unfold cbind at 1.
  rewrite (target_id_of_digits env target n w Hint).
  destruct n as [|p|p]; [done| |]; run_c; rewrite Hfits; simpl;
    destruct (gateway (chat_env env) _); unfold called; simpl;
    by rewrite <- ?app_assoc.
Qed.

Lemma cmd_warn_run cfg env cmd target rest n w :
  effective_user cmd = OWNER_ID cfg →
  args cmd = target :: rest →
  int_of_digits target = Some n → n ≠ 0 → fits_sqlite n = true →
  cmd_warn cfg env cmd w
  = (if says env (SayWarned n (fst (warn_user_db (CURRENT_TIMESTAMP (chat_env env)) n
                                      (cmd_db w))))
     then Returned tt else Raised,
     {| cmd_db := snd (warn_user_db (CURRENT_TIMESTAMP (chat_env env)) n (cmd_db w));
        cmd_calls := cmd_calls w ++
                     [Reply_text (SayWarned n
                        (fst (warn_user_db (CURRENT_TIMESTAMP (chat_env env)) n
                                (cmd_db w))))] |}).
Proof.
  intros Hown Hargs Hint Hn Hfits. unfold cmd_warn.
  unfold cbind at 1. rewrite (owner_only_admits cfg env cmd w Hown). simpl.
  rewrite Hargs. unfold cbind at 1.
  rewrite (target_id_of_digits env target n w Hint).
  destruct n as [|p|p]; [done| |]; run_c; rewrite Hfits;
    by destruct (warn_user_db _ _ _).
Qed.

(** X20: a ban by the owner is recorded whatever the chat says.  For a
    target written as a number other than zero that SQLite can store, the
    ban row is written with the owner named in the reason, then the ban call
    is made, and whether it returns or raises the owner is told the user is
    banned. *)
Theorem cmd_ban_records
    (cfg : Config) (env : CmdEnv) (cmd : Command) (target : str) (rest : list str)
    (n : Z) (w : CmdWorld) :
  effective_user cmd = OWNER_ID cfg →
  args cmd = target :: rest →
  (length target ≤ 4096)%nat →
  int_of_digits target = Some n → n ≠ 0 → fits_sqlite n = true →
  cmd_db (snd (cmd_ban cfg env cmd w))
  = ban_user_db (CURRENT_TIMESTAMP (chat_env env)) n
      ("manual by owner " +:+ pretty (OWNER_ID cfg)) (cmd_db w) ∧
  is_banned_db n (cmd_db (snd (cmd_ban cfg env cmd w))) = true ∧
  cmd_calls (snd (cmd_ban cfg env cmd w))
  = cmd_calls w ++ [Moderate (BanChatMember (effective_chat cmd) n);
                    Reply_text (SayBanned n)].
Proof.
  intros Hown Hargs _ Hint Hn Hfits.
  rewrite (cmd_ban_run cfg env cmd target rest n w Hown Hargs Hint Hn Hfits).
  simpl. split_and!; [done | | done].
  unfold is_banned_db, ban_user_db. simpl. by rewrite lookup_insert_eq.
Qed.

Lemma cmd_ban_records_witness :
  is_banned_db 42
    (cmd_db (snd (cmd_ban sample_cfg (cmd_env refusing_env true None)
                    (command_of 1 ["42"]) (command_start empty_store))))
  = true.
Proof.
  refine (proj1 (proj2 (cmd_ban_records sample_cfg (cmd_env refusing_env true None)
                          (command_of 1 ["42"]) (py "42") [] 42
                          (command_start empty_store) _ _ _ _ _ _))).
  - reflexivity.
  - reflexivity.
  - simpl. lia.
  - reflexivity.
  - discriminate.
  - reflexivity.
Defined.

Lemma target_id_of_handle env target w :
  isdigit target = false →
  target_id_of env target w
  = (Returned (get_chat env (py "@" ++ bare_username target)),
     called (GetChat (py "@" ++ bare_username target)) w).
Proof. intros H. unfold target_id_of. by rewrite H. Qed.

(** X21: a target that cannot be found changes nothing.  For the owner's
    [/ban], [/unban] and [/warn]: when the target is not a number and the
    lookup of its handle raises or gives the id 0, the command looks the
    handle up (with one leading [@] dropped and put back), answers that the
    user was not found, and leaves the store as it was. *)
Theorem unknown_target_changes_nothing
    (cfg : Config) (env : CmdEnv) (cmd : Command) (target : str) (rest : list str)
    (w : CmdWorld) :
  effective_user cmd = OWNER_ID cfg →
  args cmd = target :: rest →
  isdigit target = false →
  get_chat env (py "@" ++ bare_username target) = None ∨
  get_chat env (py "@" ++ bare_username target) = Some 0 →
  Forall (fun handler : Config → CmdEnv → Command → C unit =>
            snd (handler cfg env cmd w)
            = {| cmd_db := cmd_db w;
                 cmd_calls := cmd_calls w ++
                              [GetChat (py "@" ++ bare_username target);
                               Reply_text UserNotFound] |})
    [cmd_ban; cmd_unban; cmd_warn].
Proof.
  intros Hown Hargs Hnum Hlookup.
  pose proof (owner_only_admits cfg env cmd w Hown) as Ho.
  pose proof (target_id_of_handle env target w Hnum) as Ht.
  repeat constructor; [unfold cmd_ban | unfold cmd_unban | unfold cmd_warn];
    unfold cbind at 1; rewrite Ho; simpl; rewrite Hargs;
    unfold cbind at 1; rewrite Ht;
    destruct Hlookup as [-> | ->]; run_c; unfold called; simpl;
    rewrite <- app_assoc; by destruct (says env UserNotFound).
Qed.

Lemma unknown_target_changes_nothing_witness :
  Forall (fun handler : Config → CmdEnv → Command → C unit =>
            snd (handler sample_cfg (cmd_env willing_env true None)
                   (command_of 1 ["@bob"]) (command_start empty_store))
            = {| cmd_db := empty_store;
                 cmd_calls := [] ++ [GetChat (py "@" ++ bare_username (py "@bob"));
                                     Reply_text UserNotFound] |})
    [cmd_ban; cmd_unban; cmd_warn].
Proof.
  apply (unknown_target_changes_nothing sample_cfg (cmd_env willing_env true None)
           (command_of 1 ["@bob"]) (py "@bob") [] (command_start empty_store)).
  - reflexivity.
  - reflexivity.
  - reflexivity.
  - left. reflexivity.
Defined.

(** X22: a number the command cannot use stops it with an exception and
    without effect.  For the owner's [/ban], [/unban] and [/warn]: when the
    target passes [isdigit] but [int] refuses it (a superscript digit), or
    its value is beyond what SQLite stores, the command raises; nothing is
    written, nothing is called, the owner gets no answer. *)
Theorem unusable_number_raises
    (cfg : Config) (env : CmdEnv) (cmd : Command) (target : str) (rest : list str)
    (w : CmdWorld) :
  effective_user cmd = OWNER_ID cfg →
  args cmd = target :: rest →
  isdigit target = true →
  int_of_digits target = None ∨
  (∃ n, int_of_digits target = Some n ∧ fits_sqlite n = false) →
  Forall (fun handler : Config → CmdEnv → Command → C unit =>
            handler cfg env cmd w = (Raised, w))
    [cmd_ban; cmd_unban; cmd_warn].
Proof.
  intros Hown Hargs Hnum Hbad.
  pose proof (owner_only_admits cfg env cmd w Hown) as Ho.
  assert (target_id_of env target w = (Raised, w) ∨
          ∃ n, target_id_of env target w = (Returned (Some n), w) ∧
               fits_sqlite n = false) as Ht.
  { unfold target_id_of. rewrite Hnum.
    destruct Hbad as [-> | (n & -> & Hfits)]; [by left | right; by exists n]. }
  repeat constructor; [unfold cmd_ban | unfold cmd_unban | unfold cmd_warn];
    unfold cbind at 1; rewrite Ho; simpl; rewrite Hargs;
    unfold cbind at 1;
    (destruct Ht as [-> | (n & -> & Hfits)]; [done|]);
    (destruct n as [|p|p]; [done| |]); run_c; by rewrite Hfits.
Qed.

Lemma unusable_number_raises_witness :
  Forall (fun handler : Config → CmdEnv → Command → C unit =>
            handler sample_cfg (cmd_env willing_env true None)
              (command_of 1 ["9223372036854775808"]) (command_start empty_store)
            = (Raised, command_start empty_store))
    [cmd_ban; cmd_unban; cmd_warn].
Proof.
  apply (unusable_number_raises sample_cfg (cmd_env willing_env true None)
           (command_of 1 ["9223372036854775808"]) (py "9223372036854775808") []
           (command_start empty_store)).
  - reflexivity.
  - reflexivity.
  - reflexivity.
  - right. exists 9223372036854775808. split; reflexivity.
Defined.

Example superscript_is_a_digit_but_no_number :
  isdigit [ascii_of_N 178] = true ∧ int_of_digits [ascii_of_N 178] = None.
Proof. split; reflexivity. Qed.

(** X23: a link the owner adds is allowed from then on.  After the owner's
    [/addlink] with an argument that is not blank, every text whose
    lowercased form contains the stripped argument, lowercased, is allowed,
    whether or not the reply to the command went through. *)
Theorem added_link_is_allowed
    (cfg : Config) (env : CmdEnv) (cmd : Command) (a : str) (rest : list str)
    (w : CmdWorld) (t : str) :
  effective_user cmd = OWNER_ID cfg →
  args cmd = a :: rest →
  strip a ≠ [] →
  occurs_in (lower (strip a)) (lower t) →
  classify t (cmd_db (snd (cmd_addlink cfg env cmd w))) = Allowed.
Proof.
  intros Hown Hargs Hne Hocc.
  assert (cmd_db (snd (cmd_addlink cfg env cmd w))
          = add_allowed_link (strip a) (cmd_db w)) as ->.
  { unfold cmd_addlink. unfold cbind at 1.
    rewrite (owner_only_admits cfg env cmd w Hown). simpl. rewrite Hargs.
    by run_c. }
  apply classify_allowed_iff. right. exists (strip a). split_and!; [|done..].
  unfold add_allowed_link, list_allowed_links. simpl.
  case_bool_decide; [done|]. apply elem_of_insert_link. by left.
Qed.

Lemma added_link_is_allowed_witness :
  classify (py "see HTTPS://Example.com/OK/page")
    (cmd_db (snd (cmd_addlink sample_cfg (cmd_env willing_env false None)
                    (command_of 1 ["example.com/ok"]) (command_start empty_store))))
  = Allowed.
Proof.
  apply (added_link_is_allowed sample_cfg (cmd_env willing_env false None)
           (command_of 1 ["example.com/ok"]) (py "example.com/ok") []
           (command_start empty_store) (py "see HTTPS://Example.com/OK/page")).
  - reflexivity.
  - reflexivity.
  - discriminate.
  - apply str_in_spec. reflexivity.
Defined.

(** X24: the owner's ban and unban decide how a user is received.  After
    the owner's [/ban] of a user given by number, the user joining is met
    with the ban call (and the unban call when it returned) and not with a
    welcome; after the owner's [/unban] of the same user, the user joining is
    welcomed. *)
Theorem owner_ban_decides_reception
    (cfg : Config) (env : CmdEnv) (cmd : Command) (target : str) (rest : list str)
    (n : Z) (d : Store) (env' : Env) (msg : Message) :
  effective_user cmd = OWNER_ID cfg →
  args cmd = target :: rest →
  (length target ≤ 4096)%nat →
  int_of_digits target = Some n → n ≠ 0 → fits_sqlite n = true →
  new_chat_members msg = [n] →
  calls (snd (new_member_handler env' msg
                (start (cmd_db (snd (cmd_ban cfg env cmd (command_start d)))))))
  = BanChatMember (chat_id msg) n ::
      (if gateway env' (BanChatMember (chat_id msg) n)
       then [UnbanChatMember (chat_id msg) n] else []) ∧
  calls (snd (new_member_handler env' msg
                (start (cmd_db (snd (cmd_unban cfg env cmd
                   (command_start
                      (cmd_db (snd (cmd_ban cfg env cmd (command_start d)))))))))))
  = [ReplyText (chat_id msg) (Welcome n)].
Proof.
  intros Hown Hargs _ Hint Hn Hfits Hm.
  rewrite (cmd_unban_run cfg env cmd target rest n _ Hown Hargs Hint Hn Hfits).
  rewrite (cmd_ban_run cfg env cmd target rest n _ Hown Hargs Hint Hn Hfits).
  unfold new_member_handler. rewrite Hm.
  unfold for_each_member, greet_or_remove. run_m.
  unfold is_banned_db, unban_user_db, ban_user_db. simpl.
  rewrite lookup_delete_eq, lookup_insert_eq. split.
  - destruct (gateway env' (BanChatMember _ _)); simpl; [|done].
    by destruct (gateway env' (UnbanChatMember _ _)).
  - by destruct (gateway env' (ReplyText _ _)).
Qed.

Lemma owner_ban_decides_reception_witness :
  calls (snd (new_member_handler willing_env
                {| chat_id := 7; from_user := 0; text := None; message_id := 9;
                   new_chat_members := [42] |}
                (start (cmd_db (snd (cmd_ban sample_cfg (cmd_env refusing_env true None)
                                       (command_of 1 ["42"])
                                       (command_start empty_store)))))))
  = [BanChatMember 7 42; UnbanChatMember 7 42].
Proof.
  refine (proj1 (owner_ban_decides_reception sample_cfg (cmd_env refusing_env true None)
                   (command_of 1 ["42"]) (py "42") [] 42 empty_store willing_env
                   {| chat_id := 7; from_user := 0; text := None; message_id := 9;
                      new_chat_members := [42] |} _ _ _ _ _ _ _)).
  - reflexivity.
  - reflexivity.
  - simpl. lia.
  - reflexivity.
  - discriminate.
  - reflexivity.
  - reflexivity.
Defined.

(** X25: the owner's warnings and the automatic ones share one count.  When
    the owner has warned a user twice who had no warning, the user's next
    message over the threshold is the third warning: once the warn notice
    has gone through, the ban call is made. *)
Theorem owner_warnings_count_toward_ban
    (cfg : Config) (env : CmdEnv) (cmd : Command) (target : str) (rest : list str)
    (n : Z) (d : Store) (env' : Env) (msg : Message) (t : str) (w : World) :
  effective_user cmd = OWNER_ID cfg →
  args cmd = target :: rest →
  (length target ≤ 4096)%nat →
  int_of_digits target = Some n → n ≠ 0 → fits_sqlite n = true →
  warns d !! n = None →
  db w = cmd_db (snd (cmd_warn cfg env cmd
           (command_start (cmd_db (snd (cmd_warn cfg env cmd (command_start d))))))) →
  is_moderated cfg msg t → from_user msg = n →
  SPAM_MAX cfg < fst (add_message_time (utcnow env') n (user_msg_times w)) →
  gateway env' (ReplyText (chat_id msg) (WarnNotice 3)) = true →
  BanChatMember (chat_id msg) n ∈ calls (snd (message_handler cfg env' (Some msg) w)).
Proof.
  intros Hown Hargs _ Hint Hn Hfits Hnone Hdb Hmod Hfrom Hcount Hreply.
  rewrite !(cmd_warn_run cfg env cmd target rest n _ Hown Hargs Hint Hn Hfits) in Hdb.
  cbn [snd cmd_db command_start] in Hdb.
  assert (fst (warn_user_db (CURRENT_TIMESTAMP env') n (db w)) = 3) as Hthird.
  { rewrite Hdb. unfold warn_user_db at 1.
    pose proof (warn_user_db_count (CURRENT_TIMESTAMP (chat_env env)) n
                  (snd (warn_user_db (CURRENT_TIMESTAMP (chat_env env)) n d))) as [H2 H2'].
    rewrite H2', H2.
    pose proof (warn_user_db_count (CURRENT_TIMESTAMP (chat_env env)) n d) as [H1 H1'].
    rewrite H1', H1, Hnone. done. }
  subst n. rewrite (message_handler_spam_path cfg env' msg t w Hmod Hcount).
  assert (db (snd (track env' (from_user msg) w)) = db w) as Htrack
    by (unfold track; by destruct (add_message_time _ _ _)).
  pose proof (spam_branch_ban env' (chat_id msg) (from_user msg)
                (snd (track env' (from_user msg) w))) as H.
  rewrite Htrack, Hthird in H. apply H; [lia | done].
Qed.

Lemma owner_warnings_count_toward_ban_witness :
  BanChatMember 7 5 ∈
    calls (snd (message_handler sample_cfg refusing_env (Some (sample_msg "hello"))
                  {| db := cmd_db (snd (cmd_warn sample_cfg (cmd_env willing_env true None)
                        (command_of 1 ["5"])
                        (command_start (cmd_db (snd (cmd_warn sample_cfg
                           (cmd_env willing_env true None) (command_of 1 ["5"])
                           (command_start empty_store)))))));
                     user_msg_times := {[ 5 := replicate 20 0 ]};
                     calls := [] |})).
Proof.
  apply (owner_warnings_count_toward_ban sample_cfg (cmd_env willing_env true None)
           (command_of 1 ["5"]) (py "5") [] 5 empty_store refusing_env
           (sample_msg "hello") (py "hello")
           {| db := cmd_db (snd (cmd_warn sample_cfg (cmd_env willing_env true None)
                 (command_of 1 ["5"])
                 (command_start (cmd_db (snd (cmd_warn sample_cfg
                    (cmd_env willing_env true None) (command_of 1 ["5"])
                    (command_start empty_store)))))));
              user_msg_times := {[ 5 := replicate 20 0 ]};
              calls := [] |}).
  - reflexivity.
  - reflexivity.
  - simpl. lia.
  - reflexivity.
  - discriminate.
  - reflexivity.
  - reflexivity.
  - reflexivity.
  - split_and!; [reflexivity | discriminate | by left | discriminate].
  - reflexivity.
  - reflexivity.
  - reflexivity.
Defined.

Lemma minutes_of_given more mins w :
  minutes_given more mins → minutes_of more w = (Returned mins, w).
Proof.
  unfold minutes_given, minutes_of. destruct more as [|a1 rest]; [by intros ->|].
  destruct (isdigit a1); [by intros [-> _] | by intros ->].
Qed.

(** X26: how long a mute lasts and what the owner hears.  For the owner's
    [/mute] of a user given by number: the user is restricted from sending
    until the clock reading plus the minutes given, ten when none are given;
    the owner is told so when the call returned and is told of the failure
    when the call, or that reply, raised.  Nothing is stored. *)
Theorem cmd_mute_duration
    (cfg : Config) (env : CmdEnv) (cmd : Command) (target : str) (more : list str)
    (n mins : Z) (w : CmdWorld) :
  effective_user cmd = OWNER_ID cfg →
  args cmd = target :: more →
  (length target ≤ 4096)%nat →
  int_of_digits target = Some n → n ≠ 0 →
  minutes_given more mins →
  utcnow (chat_env env) + mins * 60 * 1000000 ≤ DATETIME_MAX →
  cmd_db (snd (cmd_mute cfg env cmd w)) = cmd_db w ∧
  cmd_calls (snd (cmd_mute cfg env cmd w))
  = cmd_calls w ++
    Restrict (effective_chat cmd) n false
      (Some (utcnow (chat_env env) + mins * 60 * 1000000)) ::
    (if restricts env (effective_chat cmd) n false
          (Some (utcnow (chat_env env) + mins * 60 * 1000000))
     then Reply_text (SayMuted n mins) ::
          (if says env (SayMuted n mins) then [] else [Reply_text FailedToMute])
     else [Reply_text FailedToMute]).
Proof.
  intros Hown Hargs _ Hint Hn Hmins Hfits.
  assert (snd (cmd_mute cfg env cmd w)
          = {| cmd_db := cmd_db w;
               cmd_calls := cmd_calls w ++
                 Restrict (effective_chat cmd) n false
                   (Some (utcnow (chat_env env) + mins * 60 * 1000000)) ::
                 (if restricts env (effective_chat cmd) n false
                       (Some (utcnow (chat_env env) + mins * 60 * 1000000))
                  then Reply_text (SayMuted n mins) ::
                       (if says env (SayMuted n mins) then []
                        else [Reply_text FailedToMute])
                  else [Reply_text FailedToMute]) |}) as ->; [|done].
  unfold cmd_mute.
  unfold cbind at 1. rewrite (owner_only_admits cfg env cmd w Hown). simpl.
  rewrite Hargs. unfold cbind at 1. rewrite (minutes_of_given more mins w Hmins).
  unfold cbind at 1. rewrite (target_id_of_digits env target n w Hint).
  unfold add_minutes. rewrite (proj2 (Z.leb_le _ _) Hfits).
  destruct n as [|p|p]; [done| |]; run_c; unfold restrict_chat_member, called; simpl;
    destruct (restricts env _ _ _ _); simpl;
    try destruct (says env (SayMuted _ _)); simpl;
    by rewrite <- ?app_assoc.
Qed.

Lemma cmd_mute_duration_witness :
  cmd_calls (snd (cmd_mute sample_cfg (cmd_env willing_env true None)
                    (command_of 1 ["42"]) (command_start empty_store)))
  = [] ++ [Restrict 7 42 false (Some 600000000); Reply_text (SayMuted 42 10)].
Proof.
  refine (proj2 (cmd_mute_duration sample_cfg (cmd_env willing_env true None)
                   (command_of 1 ["42"]) (py "42") [] 42 10
                   (command_start empty_store) _ _ _ _ _ _ _)).
  - reflexivity.
  - reflexivity.
  - simpl. lia.
  - reflexivity.
  - discriminate.
  - reflexivity.
  - vm_compute. discriminate.
Defined.

Lemma leaves_store_cret {A} (a : A) : leaves_store (cret a).
Proof. by intros w. Qed.

Lemma leaves_store_craise {A} : leaves_store (@craise A).
Proof. by intros w. Qed.

Lemma leaves_store_cbind {A B} (m : C A) (k : A → C B) :
  leaves_store m → (∀ a, leaves_store (k a)) → leaves_store (cbind m k).
Proof.
  intros Hm Hk w. unfold cbind. specialize (Hm w).
  destruct (m w) as [[a|] w']; [|done]. simpl in Hm. rewrite <- Hm. apply Hk.
Qed.

Lemma leaves_store_ctry {A} (body handler : C A) :
  leaves_store body → leaves_store handler → leaves_store (ctry body handler).
Proof.
  intros Hb Hh w. unfold ctry. specialize (Hb w).
  destruct (body w) as [[a|] w']; [done|]. simpl in Hb. rewrite <- Hb. apply Hh.
Qed.

Lemma leaves_store_reply_text env s : leaves_store (reply_text env s).
Proof. by intros w. Qed.

Lemma leaves_store_restrict env chat user can until :
  leaves_store (restrict_chat_member env chat user can until).
Proof. by intros w. Qed.

Lemma leaves_store_owner_only cfg env cmd : leaves_store (owner_only cfg env cmd).
Proof.
  unfold owner_only. case_bool_decide; [|apply leaves_store_cret].
  apply leaves_store_cbind; [apply leaves_store_reply_text|].
  intros _. apply leaves_store_cret.
Qed.

Lemma leaves_store_target_id_of env target : leaves_store (target_id_of env target).
Proof.
  unfold target_id_of. destruct (isdigit target); [|by intros w].
  destruct (int_of_digits target); [apply leaves_store_cret | apply leaves_store_craise].
Qed.

Lemma leaves_store_minutes_of more : leaves_store (minutes_of more).
Proof.
  unfold minutes_of. destruct more as [|a1 rest]; [apply leaves_store_cret|].
  destruct (isdigit a1); [|apply leaves_store_cret].
  destruct (int_of_digits a1); [apply leaves_store_cret | apply leaves_store_craise].
Qed.

(** X27: muting and unmuting are never stored.  Whoever sends [/mute] or
    [/unmute], with whatever arguments and whatever the client does, the
    store is afterwards as it was. *)
Theorem mute_is_not_stored (cfg : Config) (env : CmdEnv) (cmd : Command) (w : CmdWorld) :
  cmd_db (snd (cmd_mute cfg env cmd w)) = cmd_db w ∧
  cmd_db (snd (cmd_unmute cfg env cmd w)) = cmd_db w.
Proof.
  split; revert w.
  - change (leaves_store (cmd_mute cfg env cmd)). unfold cmd_mute.
    apply leaves_store_cbind; [apply leaves_store_owner_only|].
    intros [|]; [|apply leaves_store_cret]. simpl.
    destruct (args cmd) as [|target more]; [apply leaves_store_reply_text|].
    apply leaves_store_cbind; [apply leaves_store_minutes_of|]. intros mins.
    apply leaves_store_cbind; [apply leaves_store_target_id_of|].
    intros [[|p|p]|]; try apply leaves_store_reply_text;
      (apply leaves_store_ctry; [|apply leaves_store_reply_text]);
      (apply leaves_store_cbind;
       [unfold add_minutes; case_match;
        [apply leaves_store_cret | apply leaves_store_craise]|]);
      intros until_date;
      (apply leaves_store_cbind; [apply leaves_store_restrict|]);
      intros _; apply leaves_store_reply_text.
  - change (leaves_store (cmd_unmute cfg env cmd)). unfold cmd_unmute.
    apply leaves_store_cbind; [apply leaves_store_owner_only|].
    intros [|]; [|apply leaves_store_cret]. simpl.
    destruct (args cmd) as [|target more]; [apply leaves_store_reply_text|].
    apply leaves_store_cbind; [apply leaves_store_target_id_of|].
    intros [[|p|p]|]; try apply leaves_store_reply_text;
      (apply leaves_store_ctry; [|apply leaves_store_reply_text]);
      (apply leaves_store_cbind; [apply leaves_store_restrict|]);
      intros _; apply leaves_store_reply_text.
Qed.

(** X28: [/addlink] and [/removelink] undo each other.  When the owner adds
    a link that was not in the allow-list and then removes it with the same
    argument, the store is as it was before, whether or not the replies went
    through. *)
Theorem addlink_removelink_round_trip
    (cfg : Config) (env : CmdEnv) (cmd : Command) (a : str) (rest : list str)
    (w : CmdWorld) :
  effective_user cmd = OWNER_ID cfg →
  args cmd = a :: rest →
  strip a ∉ list_allowed_links (cmd_db w) →
  cmd_db (snd (cmd_removelink cfg env cmd (snd (cmd_addlink cfg env cmd w))))
  = cmd_db w.
Proof.
  intros Hown Hargs Hnot.
  assert (∀ w', cmd_db (snd (cmd_removelink cfg env cmd w'))
                = remove_allowed_link (strip a) (cmd_db w')) as ->.
  { intros w'. unfold cmd_removelink. unfold cbind at 1.
    rewrite (owner_only_admits cfg env cmd w' Hown). simpl. rewrite Hargs.
    by run_c. }
  assert (cmd_db (snd (cmd_addlink cfg env cmd w))
          = add_allowed_link (strip a) (cmd_db w)) as ->.
  { unfold cmd_addlink. unfold cbind at 1.
    rewrite (owner_only_admits cfg env cmd w Hown). simpl. rewrite Hargs.
    by run_c. }
  unfold remove_allowed_link, add_allowed_link, list_allowed_links in *.
  destruct (cmd_db w) as [b wn ls]. unfold set_links. simpl in *.
  rewrite bool_decide_eq_false_2 by done. f_equal.
  by apply filter_insert_link.
Qed.

Lemma addlink_removelink_round_trip_witness :
  cmd_db (snd (cmd_removelink sample_cfg (cmd_env willing_env false None)
                 (command_of 1 [" a.example "])
                 (snd (cmd_addlink sample_cfg (cmd_env willing_env false None)
                         (command_of 1 [" a.example "])
                         (command_start (add_allowed_link (py "b.example") empty_store))))))
  = cmd_db (command_start (add_allowed_link (py "b.example") empty_store)).
Proof.
  apply (addlink_removelink_round_trip sample_cfg (cmd_env willing_env false None)
           (command_of 1 [" a.example "]) (py " a.example ") []
           (command_start (add_allowed_link (py "b.example") empty_store))).
  - reflexivity.
  - reflexivity.
  - unfold list_allowed_links. simpl. intros [=]%list_elem_of_singleton.
Defined.
